(** * sso-demo: relying-party session and authorization model

    A shallow embedding of the two Express services of the repository
    (admin-portal/app.js and cs-portal/app.js, in their Redis-backed and
    their earlier in-memory versions) together with the properties the
    specification states about them.

    Layout:
    - [Js], [Http]: the JSON values and HTTP responses the handlers build;
    - [Uri]: [encodeURIComponent], used by the logout URL;
    - [Kc]: the decoded access token and its role checks;
    - [Redis]: the shared key/value store and express-session's use of it;
    - [AdminPortal], [CsPortal], [LegacyPortal]: route handlers;
    - [Gate]: the authorization gate of the specification (the code of
      keycloak-connect is not part of the repository);
    - the theorems, one block per property. *)

From stdpp Require Import base option list strings gmap.
From Stdlib Require Import ZArith Ascii String Lia.

Set Warnings "-register-all".
Open Scope string_scope.
Open Scope Z_scope.

(** ** JSON values, as passed to [res.json] and read by [response.json()] *)
Module Js.

Inductive Json : Type :=
| JNull
| JBool (b : bool)
| JNum (n : Z)
| JStr (s : string)
| JArr (items : list Json)
| JObj (fields : list (string * Json)).

(** An object literal whose property values may be [undefined]:
    [JSON.stringify] leaves such properties out. *)
Definition object (props : list (string * option Json)) : Json :=
  JObj (omap (fun p => match snd p with
                       | Some v => Some (fst p, v)
                       | None => None
                       end) props).

(** Property read [o.k]; [None] is [undefined]. *)
Fixpoint assoc (k : string) (fields : list (string * Json)) : option Json :=
  match fields with
  | [] => None
  | (k', v) :: rest => if String.eqb k k' then Some v else assoc k rest
  end.

Definition get (k : string) (o : Json) : option Json :=
  match o with
  | JObj fields => assoc k fields
  | _ => None
  end.

Definition str (s : option string) : option Json := JStr <$> s.

End Js.

(** ** HTTP responses *)
Module Http.
Import Js.

Inductive Body : Type :=
| NoBody
| JsonBody (j : Json)
| TextBody (s : string)
| View (name : string) (locals : Json).

(** What a handler answered. [location] is the URL it handed to
    [res.redirect]; Express writes it to the [Location] header after
    percent-encoding the characters of it that are not URL-safe. *)
Record Response : Type := mkResponse {
  status : Z;
  body : Body;
  location : option string;
  clearedCookies : list string
}.

(** [res.json(j)] with the default status. *)
Definition json (j : Json) : Response := mkResponse 200 (JsonBody j) None [].
(** [res.status(s).json(j)]. *)
Definition status_json (s : Z) (j : Json) : Response := mkResponse s (JsonBody j) None [].
(** [res.render(view, locals)]. *)
Definition render (view : string) (locals : Json) : Response :=
  mkResponse 200 (View view locals) None [].
(** [res.redirect(url)]: Express answers 302 Found. *)
Definition redirect (cleared : list string) (url : string) : Response :=
  mkResponse 302 NoBody (Some url) cleared.

(** What [fetch] hands back: the sibling's status line and body. The body
    either parses as JSON or makes [response.json()] throw a [SyntaxError]
    with the given message. *)
Inductive UpstreamBody : Type :=
| Parses (j : Json)
| NotJson (raw : string) (syntaxError : string).

Record UpstreamResponse : Type := mkUpstream {
  up_status : Z;
  up_body : UpstreamBody
}.

(** [response.ok]: the status is in the range 200-299. *)
Definition ok (r : UpstreamResponse) : bool :=
  (200 <=? up_status r) && (up_status r <=? 299).

Inductive FetchResult : Type :=
| Rejected (message : string)      (* network failure: the promise rejects *)
| Resolved (r : UpstreamResponse).

(** The outbound request a proxy route builds. *)
Record Outbound : Type := mkOutbound {
  out_url : string;
  out_authorization : string
}.

End Http.

(** ** [encodeURIComponent] on byte strings
    A string here is the sequence of UTF-8 bytes of a well-formed
    JavaScript string, so its [String.length] counts bytes, not UTF-16
    units; a lone surrogate, on which the built-in throws [URIError], has
    no such sequence and no counterpart here. *)
Module Uri.

Definition between (lo hi n : nat) : bool := (lo <=? n)%nat && (n <=? hi)%nat.

(** The characters left as they are: A-Z a-z 0-9 - _ . ! ~ * ' ( ) *)
Definition unreserved (c : ascii) : bool :=
  let n := nat_of_ascii c in
  between 65 90 n || between 97 122 n || between 48 57 n
  || existsb (Ascii.eqb c) (list_ascii_of_string "-_.!~*'()").

Definition hexdigit (n : nat) : ascii :=
  nth n (list_ascii_of_string "0123456789ABCDEF") "0"%char.

Definition escape (c : ascii) : string :=
  let n := nat_of_ascii c in
  String "%" (String (hexdigit (n / 16)) (String (hexdigit (n mod 16)) EmptyString)).

Fixpoint encodeURIComponent (s : string) : string :=
  match s with
  | EmptyString => EmptyString
  | String c rest =>
      (if unreserved c then String c EmptyString else escape c)
        +:+ encodeURIComponent rest
  end.

End Uri.

(** ** The decoded access token ([req.kauth.grant.access_token]) *)
Module Kc.

(** [token.content]: the claims the services read (docs/SSO-FLOW-EXPLAINED.md,
    "Token Structure"). [realm_roles] is [realm_access?.roles]: [None] when
    the token has no [realm_access]. *)
Record Content : Type := mkContent {
  sub : string;
  preferred_username : option string;
  name : option string;
  email : option string;
  realm_roles : option (list string);
  resource_access : list (string * list string);
  exp : Z
}.

(** [token.token] is the raw JWT, [token.clientId] the service's own
    client ([resource] in the Keycloak configuration). *)
Record Token : Type := mkToken {
  token : string;
  clientId : string;
  content : Content
}.

Record Grant : Type := mkGrant {
  access_token : Token;
  refresh_token : option string;
  id_token : option string
}.

(** [token.hasRealmRole(r)]: true if the user has realm role [r]. *)
Definition hasRealmRole (t : Token) (r : string) : bool :=
  match realm_roles (content t) with
  | Some roles => existsb (String.eqb r) roles
  | None => false
  end.

Fixpoint app_roles (app : string) (ra : list (string * list string)) : list string :=
  match ra with
  | [] => []
  | (a, roles) :: rest => if String.eqb app a then roles else app_roles app rest
  end.

(** [token.hasApplicationRole(app, r)]: a role of one client. *)
Definition hasApplicationRole (t : Token) (app r : string) : bool :=
  existsb (String.eqb r) (app_roles app (resource_access (content t))).

(** [name.split(':')]: the parts between the colons, all of them. *)
Fixpoint split_colon (s : string) : list string :=
  match s with
  | EmptyString => [EmptyString]
  | String c rest =>
      if Ascii.eqb c ":"%char then EmptyString :: split_colon rest
      else match split_colon rest with
           | part :: parts => String c part :: parts
           | [] => [String c EmptyString]
           end
  end.

(** [token.hasRole(name)]: with one part the name is a role of the
    service's own client; otherwise the first part is the scope and the
    second the role (further parts are not read): ['realm:r'] is a realm
    role, ['app:r'] a role of client [app]. *)
Definition hasRole (t : Token) (name : string) : bool :=
  match split_colon name with
  | [] => false
  | [role] => hasApplicationRole t (clientId t) role
  | scope :: role :: _ =>
      if String.eqb scope "realm" then hasRealmRole t role
      else hasApplicationRole t scope role
  end.

(** The role set of the token, with set semantics. *)
Definition role_set (t : Token) : gset string :=
  list_to_set (default [] (realm_roles (content t))).

End Kc.

(** ** The session store *)
Module Redis.

(** What a stored session holds besides its cookie settings: the grant
    keycloak-connect keeps in it, serialized, once there is one. *)
Record SessionData : Type := mkSession {
  keycloak_token : option string
}.

Definition empty_session : SessionData := mkSession None.

Abbreviation Store := (gmap string SessionData).

(** Store failures a request may meet: the error [store.destroy] hands to
    its callback, and the error [redisClient.del] rejects with. *)
Record Faults : Type := mkFaults {
  destroy_error : option string;
  del_error : option string
}.

Definition no_faults : Faults := mkFaults None None.

(** How the store answers the two calls of a logout. Both settle, with a
    value or with the errors of [f]; or one of them never settles: the
    client queues commands while Redis cannot be reached, so the promise
    stays pending and nothing that waits for it runs. *)
Inductive Answers : Type :=
| Settle (f : Faults)
| DestroyPending
| DelPending (destroy_failed : option string).

(** [redisClient.del(key)]: removes the key; a missing key is no error
    (Redis answers with the number of keys removed). *)
Definition del (f : Faults) (key : string) (redis : Store) : string + Store :=
  match del_error f with
  | Some e => inl e
  | None => inr (delete key redis)
  end.

(** [req.session.destroy(cb)]: express-session asks the store to destroy
    the session, and connect-redis deletes [prefix + sid]. The callback
    gets the error, if any. *)
Definition session_destroy (prefix : string) (f : Faults) (sid : string)
    (redis : Store) : Store * option string :=
  match destroy_error f with
  | Some e => (redis, Some e)
  | None => (delete (prefix +:+ sid) redis, None)
  end.

End Redis.

(** ** What the handlers share *)

Inductive LogEntry : Type :=
| LogError (what detail : string)     (* console.error *)
| LogInfo (what : string).            (* console.log *)

Definition is_error (e : LogEntry) : bool :=
  match e with LogError _ _ => true | LogInfo _ => false end.

Definition errors (log : list LogEntry) : list LogEntry := List.filter is_error log.

(** The environment of a service ([process.env] with the defaults). *)
Record Config : Type := mkConfig {
  KEYCLOAK_URL : string;
  CS_PORTAL_URL : string;
  ADMIN_PORTAL_URL : string
}.

Definition default_config : Config :=
  mkConfig "http://localhost:8080" "http://localhost:3002" "http://localhost:3001".

(** JavaScript's [a || b] on possibly undefined strings: the empty string
    is falsy too. *)
Definition js_or (a b : option string) : option string :=
  match a with
  | Some s => if String.eqb s "" then b else Some s
  | None => b
  end.

(** The [user] object both dashboards render. *)
Definition dashboard_user (userInfo : Kc.Content) : Js.Json :=
  Js.object [
    ("name", Js.str (js_or (Kc.preferred_username userInfo) (Kc.name userInfo)));
    ("email", Js.str (Kc.email userInfo));
    ("roles", Some (Js.JArr (Js.JStr <$> default [] (Kc.realm_roles userInfo))))
  ].

(** An incoming HTTP request, before any middleware ran: the path, the
    bearer credential of its [Authorization] header, the session identifier
    of its [connect.sid] cookie, the [code] and [state] query parameters of
    a provider callback, and whether it is a browser navigation. *)
Record Incoming : Type := mkIncoming {
  path : string;
  bearer : option string;
  cookie_sid : option string;
  query_code : option string;
  query_state : option string;
  interactive : bool
}.

(** The argument of [keycloak.protect]: a role specification such as
    ['realm:admin'], or a guard function [(token, request) => bool]. *)
Inductive ProtectSpec : Type :=
| ByRole (spec : string)
| ByGuard (guard : Kc.Token -> Incoming -> bool).

(** ** express-session, as the services configure it
    (the middleware is a dependency; what is modelled is the documented
    meaning of the options the source sets and of the store calls it makes) *)
Module Session.
Import Redis.

(** The options the source sets. [store_prefix] is the key prefix of the
    store ([''] for the [MemoryStore], which keys by session id alone). *)
Record Options : Type := mkOptions {
  store_prefix : string;
  resave : bool;
  saveUninitialized : bool
}.

Definition key (o : Options) (sid : string) : string := store_prefix o +:+ sid.

(** The session of one request: loaded from the store when the cookie
    names a stored session, generated under a new identifier otherwise. *)
Record Loaded : Type := mkLoaded {
  sid : string;
  data : SessionData;
  isNew : bool
}.

Definition load (o : Options) (redis : Store) (cookie : option string)
    (newid : string) : Loaded :=
  match cookie with
  | Some id =>
      match redis !! key o id with
      | Some d => mkLoaded id d false
      | None => mkLoaded newid empty_session true
      end
  | None => mkLoaded newid empty_session true
  end.

(** What a handler left of the session. *)
Inductive Fate : Type :=
| Kept (modified : bool) (d : SessionData)
| Destroyed.

(** End of the request: a modified session is saved; an unmodified one is
    saved only when it is new and [saveUninitialized] is set, or when
    [resave] is set. A saved new session sends its cookie. A destroyed
    session is not saved. *)
Definition should_save (o : Options) (l : Loaded) (modified : bool) : bool :=
  modified || (if isNew l then saveUninitialized o else resave o).

Definition finish (o : Options) (l : Loaded) (f : Fate) (redis : Store)
    (cookie : option string) : Store * option string :=
  match f with
  | Destroyed => (redis, cookie)
  | Kept modified d =>
      if should_save o l modified
      then (<[key o (sid l) := d]> redis, if isNew l then Some (sid l) else cookie)
      else (redis, cookie)
  end.

End Session.

(** ** Admin Portal (admin-portal/app.js, Redis-backed version) *)
Module AdminPortal.
Import Js Http.

Definition resource : string := "admin-portal".
Definition prefix : string := "admin-portal:sess:".
Definition session_options : Session.Options := Session.mkOptions prefix false false.

(** [app.get('/')] *)
Definition index : Response :=
  render "index" (object [("title", Some (JStr "Admin Portal")); ("user", Some JNull)]).

(** [app.get('/dashboard', keycloak.protect('realm:admin'), ...)] *)
Definition dashboard_protect : ProtectSpec := ByRole "realm:admin".

Definition dashboard (g : Kc.Grant) : Response :=
  let userInfo := Kc.content (Kc.access_token g) in
  render "dashboard" (object [
    ("title", Some (JStr "Admin Dashboard"));
    ("user", Some (dashboard_user userInfo));
    ("portal", Some (JStr "Admin Portal"))
  ]).

(** [app.get('/api/profits', keycloak.protect('realm:admin'), ...)] *)
Definition api_profits_protect : ProtectSpec := ByRole "realm:admin".

Definition profit_row (id : Z) (month : string) (revenue expenses profit : Z) : Json :=
  JObj [("id", JNum id); ("month", JStr month); ("revenue", JNum revenue);
        ("expenses", JNum expenses); ("profit", JNum profit)].

Definition profits : Json :=
  JArr [ profit_row 1 "2026-01" 150000 85000 65000;
         profit_row 2 "2026-02" 175000 92000 83000;
         profit_row 3 "2026-03" 162000 88000 74000 ].

Definition api_profits (g : Kc.Grant) : Response :=
  let userInfo := Kc.content (Kc.access_token g) in
  json (object [
    ("success", Some (JBool true));
    ("requestedBy", str (Kc.preferred_username userInfo));
    ("data", Some profits)
  ]).

(** [app.get('/api/customers', keycloak.protect('realm:admin'), ...)]:
    the proxy to CS Portal. The sibling's status is not looked at. *)
Definition api_customers_protect : ProtectSpec := ByRole "realm:admin".

Definition api_customers (cfg : Config) (fetch : Outbound -> FetchResult)
    (g : Kc.Grant) : Response :=
  let token := Kc.token (Kc.access_token g) in
  match fetch (mkOutbound (CS_PORTAL_URL cfg +:+ "/api/customers") ("Bearer " +:+ token)) with
  | Resolved response =>
      match up_body response with
      | Parses data => json data
      | NotJson _ message =>
          status_json 500 (object [("error", Some (JStr "Failed to fetch customers"));
                                   ("message", Some (JStr message))])
      end
  | Rejected message =>
      status_json 500 (object [("error", Some (JStr "Failed to fetch customers"));
                               ("message", Some (JStr message))])
  end.

(** [app.get('/auth/logout', ...)]: the URL, and what the handler does
    when both of its store calls settle. *)
Definition logoutUrl (cfg : Config) : string :=
  KEYCLOAK_URL cfg +:+ "/realms/demo/protocol/openid-connect/logout?redirect_uri="
    +:+ Uri.encodeURIComponent (ADMIN_PORTAL_URL cfg +:+ "/").

Definition auth_logout (cfg : Config) (f : Redis.Faults) (sessionId : string)
    (redis : Redis.Store) : Redis.Store * list LogEntry * Response :=
  let '(redis1, err) := Redis.session_destroy prefix f sessionId redis in
  let log1 := match err with
              | Some e => [LogError "Session destruction error:" e]
              | None => []
              end in
  let '(redis2, log2) :=
    match Redis.del f ("admin-portal:sess:" +:+ sessionId) redis1 with
    | inr redis' =>
        (redis', [LogInfo ("Deleted Redis session: admin-portal:sess:" +:+ sessionId)])
    | inl redisErr => (redis1, [LogError "Redis delete error:" redisErr])
    end in
  (redis2, (log1 ++ log2)%list, redirect ["connect.sid"] (logoutUrl cfg)).

(** The same route with calls that may never settle. The response is
    written at the end of the destroy callback, after the awaited delete:
    while [req.session.destroy] has not called back, or the delete has not
    settled, nothing is written, and nothing in the service times out. *)
Definition auth_logout_answer (cfg : Config) (a : Redis.Answers) (sessionId : string)
    (redis : Redis.Store) : Redis.Store * list LogEntry * option Response :=
  match a with
  | Redis.Settle f =>
      let '(redis', log, response) := auth_logout cfg f sessionId redis in
      (redis', log, Some response)
  | Redis.DestroyPending => (redis, [], None)
  | Redis.DelPending destroy_failed =>
      let '(redis1, err) :=
        Redis.session_destroy prefix (Redis.mkFaults destroy_failed None) sessionId redis in
      (redis1,
       match err with
       | Some e => [LogError "Session destruction error:" e]
       | None => []
       end,
       None)
  end.

End AdminPortal.

(** ** CS Portal (the Redis-backed version of cs-portal/app.js) *)
Module CsPortal.
Import Js Http.

Definition resource : string := "cs-portal".
Definition prefix : string := "cs-portal:sess:".
Definition session_options : Session.Options := Session.mkOptions prefix false false.

Definition index : Response :=
  render "index" (object [("title", Some (JStr "CS Portal")); ("user", Some JNull)]).

(** The guard of [/dashboard], [/api/customers] and [/api/profits]:
    [token.hasRealmRole('cs') || token.hasRealmRole('admin')]. The
    dashboard's guard also logs the token; none reads the request. *)
Definition cs_or_admin (token : Kc.Token) (request : Incoming) : bool :=
  Kc.hasRealmRole token "cs" || Kc.hasRealmRole token "admin".

Definition dashboard_protect : ProtectSpec := ByGuard cs_or_admin.

Definition dashboard (g : Kc.Grant) : Response :=
  let userInfo := Kc.content (Kc.access_token g) in
  render "dashboard" (object [
    ("title", Some (JStr "CS Dashboard"));
    ("user", Some (dashboard_user userInfo));
    ("portal", Some (JStr "Customer Service Portal"))
  ]).

Definition api_customers_protect : ProtectSpec := ByGuard cs_or_admin.

Definition customer_row (id : Z) (name email status : string) : Json :=
  JObj [("id", JNum id); ("name", JStr name); ("email", JStr email);
        ("status", JStr status)].

Definition customers : Json :=
  JArr [ customer_row 1 "Alice Chen" "alice@example.com" "active";
         customer_row 2 "Bob Wang" "bob@example.com" "active";
         customer_row 3 "Carol Liu" "carol@example.com" "pending" ].

Definition api_customers (g : Kc.Grant) : Response :=
  let userInfo := Kc.content (Kc.access_token g) in
  json (object [
    ("success", Some (JBool true));
    ("requestedBy", str (Kc.preferred_username userInfo));
    ("data", Some customers)
  ]).

(** [app.get('/api/profits', ...)]: the proxy to Admin Portal. *)
Definition api_profits_protect : ProtectSpec := ByGuard cs_or_admin.

Definition access_denied : Json :=
  object [("error", Some (JStr "Access Denied"));
          ("message", Some (JStr
             "You do not have permission to access profits data (requires admin role)"))].

Definition api_profits (cfg : Config) (fetch : Outbound -> FetchResult)
    (g : Kc.Grant) : Response :=
  let token := Kc.token (Kc.access_token g) in
  match fetch (mkOutbound (ADMIN_PORTAL_URL cfg +:+ "/api/profits") ("Bearer " +:+ token)) with
  | Resolved response =>
      if negb (ok response)
      then status_json (up_status response) access_denied
      else match up_body response with
           | Parses data => json data
           | NotJson _ message =>
               status_json 500 (object [("error", Some (JStr "Failed to fetch profits"));
                                        ("message", Some (JStr message))])
           end
  | Rejected message =>
      status_json 500 (object [("error", Some (JStr "Failed to fetch profits"));
                               ("message", Some (JStr message))])
  end.

Definition logoutUrl (cfg : Config) : string :=
  KEYCLOAK_URL cfg +:+ "/realms/demo/protocol/openid-connect/logout?redirect_uri="
    +:+ Uri.encodeURIComponent (CS_PORTAL_URL cfg +:+ "/").

Definition auth_logout (cfg : Config) (f : Redis.Faults) (sessionId : string)
    (redis : Redis.Store) : Redis.Store * list LogEntry * Response :=
  let log0 := [LogInfo "Initiating logout process for CS Portal"] in
  let '(redis1, err) := Redis.session_destroy prefix f sessionId redis in
  let log1 := match err with
              | Some e => [LogError "Session destruction error:" e]
              | None => []
              end in
  let '(redis2, log2) :=
    match Redis.del f ("cs-portal:sess:" +:+ sessionId) redis1 with
    | inr redis' =>
        (redis', [LogInfo ("Deleted Redis session: cs-portal:sess:" +:+ sessionId)])
    | inl redisErr => (redis1, [LogError "Redis delete error:" redisErr])
    end in
  (redis2, (log0 ++ log1 ++ log2)%list, redirect ["connect.sid"] (logoutUrl cfg)).

(** The same route with calls that may never settle (as for Admin Portal;
    the first log line is written before the session is destroyed). *)
Definition auth_logout_answer (cfg : Config) (a : Redis.Answers) (sessionId : string)
    (redis : Redis.Store) : Redis.Store * list LogEntry * option Response :=
  match a with
  | Redis.Settle f =>
      let '(redis', log, response) := auth_logout cfg f sessionId redis in
      (redis', log, Some response)
  | Redis.DestroyPending =>
      (redis, [LogInfo "Initiating logout process for CS Portal"], None)
  | Redis.DelPending destroy_failed =>
      let '(redis1, err) :=
        Redis.session_destroy prefix (Redis.mkFaults destroy_failed None) sessionId redis in
      (redis1,
       (LogInfo "Initiating logout process for CS Portal" ::
        match err with
        | Some e => [LogError "Session destruction error:" e]
        | None => []
        end)%list,
       None)
  end.

End CsPortal.

(** ** The earlier in-memory version of both services
    (cs-portal/app.js, and the second version of admin-portal/app.js) *)
Module LegacyPortal.
Import Js Http.

(** [session({ secret, resave: false, saveUninitialized: true,
    store: memoryStore })] *)
Definition session_options : Session.Options := Session.mkOptions "" false true.

(** The handler registered with [app.get('/logout', ...)]:
    [req.logout ? req.logout() : null], then [res.redirect('/')]; nothing
    in the application defines [req.logout]. This handler is never what
    answers [GET /logout]: [keycloak.middleware()] is mounted before it and
    answers that path itself (the later version says so where it moves its
    own logout to [/auth/logout]). See [Lifecycle.keycloak_logout]. *)
Definition logout (redis : Redis.Store) : Redis.Store * Response :=
  (redis, redirect [] "/").

(** Where [keycloak.middleware()] sends a browser that asks for [/logout]:
    the end-session endpoint of the realm the service is configured with
    (['auth-server-url': 'http://localhost:8080/'], [realm: 'demo']). The
    query the library appends to it is left out. *)
Definition keycloak_logout_endpoint : string :=
  "http://localhost:8080/" +:+ "realms/demo" +:+ "/protocol/openid-connect/logout".

End LegacyPortal.

(** ** A browser against one service: the life of its session record *)
Module Lifecycle.
Import Redis Session Http.

(** What a route leaves behind: the store, the session's fate, the response. *)
Record Outcome : Type := mkOutcome {
  after : Store;
  fate : Fate;
  response : Response
}.

Definition Handler : Type := Loaded -> Store -> Outcome.

(** A public page: the handler renders and does not touch the session. *)
Definition public_page (page : Response) : Handler :=
  fun l redis => mkOutcome redis (Kept false (data l)) page.

(** [keycloak.middleware()] on a provider callback whose code exchange
    succeeded: the grant is stored in the session and the browser is sent
    to the clean URL (docs/SSO-FLOW-EXPLAINED.md, steps 8 to 11). *)
Definition callback_stored (grant cleanUrl : string) : Handler :=
  fun l redis => mkOutcome redis (Kept true (mkSession (Some grant))) (redirect [] cleanUrl).

(** [/auth/logout] of the Redis-backed services: the session is destroyed. *)
Definition admin_logout (cfg : Config) (f : Faults) : Handler :=
  fun l redis =>
    let '(redis', _, resp) := AdminPortal.auth_logout cfg f (sid l) redis in
    mkOutcome redis' Destroyed resp.

Definition cs_logout (cfg : Config) (f : Faults) : Handler :=
  fun l redis =>
    let '(redis', _, resp) := CsPortal.auth_logout cfg f (sid l) redis in
    mkOutcome redis' Destroyed resp.

(** What keycloak-connect finds when it validates the grant a session
    holds: still good, refreshed with the provider, or no longer usable. *)
Inductive GrantCheck : Type :=
| Valid
| Refreshed (grant : string)
| Invalid.

(** A route behind [keycloak.protect]. With a usable grant in the session
    the guard and the route answer ([status], [body]) and the session is
    left alone, or holds the refreshed grant. Without one the browser is
    sent to the provider's login at [loginUrl], and the URL to come back to
    is written into the session first: the session is modified, so it is
    saved, also under [saveUninitialized: false]. *)
Definition protected_route (check : GrantCheck) (status : Z) (body : Body)
    (loginUrl : string) : Handler :=
  fun l redis =>
    match keycloak_token (data l), check with
    | Some _, Valid =>
        mkOutcome redis (Kept false (data l)) (mkResponse status body None [])
    | Some _, Refreshed g =>
        mkOutcome redis (Kept true (mkSession (Some g))) (mkResponse status body None [])
    | _, _ => mkOutcome redis (Kept true (data l)) (redirect [] loginUrl)
    end.

(** [GET /logout], which [keycloak.middleware()] answers itself on every
    version of the services: the grant is taken out of the session and the
    browser is sent to the provider's logout at [target]. The session is
    not destroyed. *)
Definition keycloak_logout (target : string) : Handler :=
  fun l redis =>
    match keycloak_token (data l) with
    | Some _ => mkOutcome redis (Kept true (mkSession None)) (redirect [] target)
    | None => mkOutcome redis (Kept false (data l)) (redirect [] target)
    end.

(** The logout of the in-memory services is that [/logout]. *)
Definition legacy_logout : Handler :=
  keycloak_logout LegacyPortal.keycloak_logout_endpoint.

(** A service as a browser meets it: its session options, its public page
    and its logout route. *)
Record Service : Type := mkService {
  options : Options;
  home : Response;
  logout : Handler
}.

(** The Redis-backed services, with the store reachable. *)
Definition admin_portal (cfg : Config) : Service :=
  mkService AdminPortal.session_options AdminPortal.index (admin_logout cfg no_faults).

Definition cs_portal (cfg : Config) : Service :=
  mkService CsPortal.session_options CsPortal.index (cs_logout cfg no_faults).

(** The in-memory versions of the two services. *)
Definition legacy_admin_portal : Service :=
  mkService LegacyPortal.session_options AdminPortal.index legacy_logout.

Definition legacy_cs_portal : Service :=
  mkService LegacyPortal.session_options CsPortal.index legacy_logout.

(** The store together with the browser's [connect.sid] cookie. *)
Record Browser : Type := mkBrowser {
  redis : Store;
  cookie : option string
}.

(** One request: the session middleware loads or generates the session,
    the handler runs, the session is saved or not, and the browser's
    cookie follows [Set-Cookie] and [res.clearCookie]. *)
Definition serve (o : Options) (h : Handler) (newid : string) (b : Browser)
    : Browser * Response :=
  let l := load o (redis b) (cookie b) newid in
  let out := h l (redis b) in
  let '(redis', cookie') := finish o l (fate out) (after out) (cookie b) in
  let cleared := existsb (String.eqb "connect.sid") (clearedCookies (response out)) in
  (mkBrowser redis' (if cleared then None else cookie'), response out).

Inductive Event : Type :=
| Visit (newid : string)                   (* GET / *)
| Exchange (newid grant : string)          (* callback, exchange succeeded *)
| Logout (newid : string)                  (* the service's logout route *)
| Expire                                   (* the store drops the record *)
| Protected (newid : string) (check : GrantCheck) (status : Z) (body : Body)
    (loginUrl : string)                    (* GET of a route behind keycloak.protect *)
| ProviderLogout (newid target : string).  (* GET /logout *)

Definition step (s : Service) (b : Browser) (e : Event) : Browser :=
  match e with
  | Visit n => fst (serve (options s) (public_page (home s)) n b)
  | Exchange n g => fst (serve (options s) (callback_stored g "/dashboard") n b)
  | Logout n => fst (serve (options s) (logout s) n b)
  | Expire =>
      match cookie b with
      | Some id => mkBrowser (delete (key (options s) id) (redis b)) (cookie b)
      | None => b
      end
  | Protected n check status body loginUrl =>
      fst (serve (options s) (protected_route check status body loginUrl) n b)
  | ProviderLogout n target => fst (serve (options s) (keycloak_logout target) n b)
  end.

Definition run (s : Service) (b : Browser) (trace : list Event) : Browser :=
  fold_left (step s) trace b.

(** The session identifiers the service generated while it served the
    browser's requests. *)
Definition event_ids (e : Event) : list string :=
  match e with
  | Visit n | Exchange n _ | Logout n | Protected n _ _ _ _ | ProviderLogout n _ => [n]
  | Expire => []
  end.

Definition ids (trace : list Event) : list string := flat_map event_ids trace.

(** A record for this browser exists in the service's store: one of the
    identifiers generated for it is a key of the store, whether or not the
    browser still has the cookie. *)
Definition holds_record (s : Service) (generated : list string) (b : Browser) : bool :=
  existsb (fun id => bool_decide (is_Some (redis b !! key (options s) id))) generated.

(** The cookie of the browser names a stored session. *)
Definition has_record (s : Service) (b : Browser) : bool :=
  match cookie b with
  | Some id => bool_decide (is_Some (redis b !! key (options s) id))
  | None => false
  end.

(** The specification's condition for a record to exist: at least one
    successful exchange, no logout since, and no expiry since. *)
Definition entitled (was : bool) (e : Event) : bool :=
  match e with
  | Exchange _ _ => true
  | Logout _ | ProviderLogout _ _ => false
  | Expire => false
  | Visit _ | Protected _ _ _ _ _ => was
  end.

(** What the Redis-backed services do instead: a record is there once a
    code exchange completed or a protected route was asked for (the pending
    login is kept in the session), until [/auth/logout] or expiry. *)
Definition kept_by_redis (was : bool) (e : Event) : bool :=
  match e with
  | Exchange _ _ | Protected _ _ _ _ _ => true
  | Logout _ => false
  | Expire => false
  | Visit _ | ProviderLogout _ _ => was
  end.

(** What the in-memory services do: a record is there after any request,
    until it expires. *)
Definition kept_in_memory (was : bool) (e : Event) : bool :=
  match e with
  | Expire => false
  | _ => true
  end.

End Lifecycle.

(** ** The authorization gate
    [keycloak.protect] and [keycloak.middleware] belong to keycloak-connect,
    whose code is not in the repository; the gate below is the one the
    specification describes (sections 3, 4.1 to 4.3 and 7). *)
Module Gate.

(** Modelled from the spec: the role predicate of section 4.3 and of the
    design notes, a required role, any of several roles, or a function over
    the verified role set. keycloak-connect's guard code is missing. *)
Inductive RolePredicate : Type :=
| RequireRole (name : string)
| RequireAny (names : list string)
| Custom (f : gset string -> bool).

(** Modelled from the spec: evaluation of a role predicate on a role set
    with set semantics (section 3, Access Token). *)
Definition eval (p : RolePredicate) (roles : gset string) : bool :=
  match p with
  | RequireRole r => bool_decide (r ∈ roles)
  | RequireAny rs => existsb (fun r => bool_decide (r ∈ roles)) rs
  | Custom f => f roles
  end.

(** Modelled from the spec: how the guard reads the argument of
    [keycloak.protect] (keycloak-connect's code is missing; the repository's
    docs/SSO-FLOW-EXPLAINED.md, "Protected Route" and "Role Checking
    Methods", describe it): a role specification goes to [token.hasRole], a
    function is called with the token and the request. *)
Definition source_guard (spec : ProtectSpec) (t : Kc.Token) (request : Incoming) : bool :=
  match spec with
  | ByRole s => Kc.hasRole t s
  | ByGuard g => g t request
  end.

(** Modelled from the spec: the token set of section 3 (the grant that
    keycloak-connect keeps is not in the repository). *)
Record TokenSet : Type := mkTokenSet {
  accessToken : string;
  refreshToken : option string;
  idToken : option string;
  accessTokenExpiry : Z
}.

(** Modelled from the spec: the Session Record of section 3, without its
    key (the session identifier is the key of the store). *)
Record SessionRecord : Type := mkRecord {
  tokenSet : TokenSet;
  createdAt : Z;
  lastAccessedAt : Z
}.

Abbreviation Sessions := (gmap string SessionRecord).

(** Modelled from the spec: the errors of [verify] (section 4.2). *)
Inductive VerifyError : Type := Expired | BadSignature | WrongIssuer.

(** Modelled from the spec: the errors of [exchangeCodeForTokens]
    (section 4.2). *)
Inductive ExchangeError : Type := InvalidGrant | NetworkFailure.

(** Modelled from the spec: the Identity Provider Client of section 4.2, a
    black box whose code (keycloak-connect and Keycloak itself) is missing.
    [verify] yields the verified claims, the decoded token. *)

Record Provider : Type := mkProvider {
  authorizationEndpoint : string;
  verify : string -> Z -> VerifyError + Kc.Token;
  exchangeCodeForTokens : string -> string -> string -> ExchangeError + TokenSet;
  refresh : string -> option TokenSet
}.

(** Modelled from the spec: [buildAuthorizationUrl] of section 4.2 with the
    query of section 6 ([client_id], [redirect_uri], [response_type=code],
    [state]). *)
Definition buildAuthorizationUrl (idp : Provider) (clientId redirectUri state : string)
    : string :=
  authorizationEndpoint idp +:+ "?client_id=" +:+ Uri.encodeURIComponent clientId
    +:+ "&redirect_uri=" +:+ Uri.encodeURIComponent redirectUri
    +:+ "&response_type=code&state=" +:+ Uri.encodeURIComponent state.

(** Modelled from the spec: one relying party, with its client, its own
    base URL and its store namespace (section 6, session store key layout). *)
Record Service : Type := mkService {
  clientId : string;
  baseUrl : string;
  serviceName : string
}.

(** Modelled from the spec: the key layout of section 6,
    [<service-name>:sess:<sessionId>]. *)
Definition key (s : Service) (sessionId : string) : string :=
  serviceName s +:+ ":sess:" +:+ sessionId.

(** Modelled from the spec: [get] of the Session Manager (section 4.1). *)
Definition get (s : Service) (sessionId : string) (store : Sessions) : option SessionRecord :=
  store !! key s sessionId.

(** Modelled from the spec: [create] of the Session Manager; the fresh
    identifier is drawn by the caller. *)
Definition create (s : Service) (sessionId : string) (now : Z) (ts : TokenSet)
    (store : Sessions) : Sessions :=
  <[key s sessionId := mkRecord ts now now]> store.

(** Modelled from the spec: [update] of the Session Manager, which
    replaces the stored token set. *)
Definition update (s : Service) (sessionId : string) (ts : TokenSet)
    (store : Sessions) : Sessions :=
  alter (fun r => mkRecord ts (createdAt r) (lastAccessedAt r)) (key s sessionId) store.

(** Modelled from the spec: [destroy] of the Session Manager; destroying
    an identifier that is not there changes nothing. *)
Definition destroy (s : Service) (sessionId : string) (store : Sessions) : Sessions :=
  delete (key s sessionId) store.

(** Modelled from the spec: the Pending Authorization State of section 3. *)
Record Pending : Type := mkPending {
  pendingState : string;
  redirectTarget : string
}.

(** Modelled from the spec: the service's store and the pending state of
    the browser at hand (the state machine of section 4.3 is per browser
    session, per service). *)
Record State : Type := mkState {
  sessions : Sessions;
  pending : option Pending
}.

(** Modelled from the spec: what the surroundings supply to one request,
    the time and the fresh values the gate draws (a session identifier for
    [create], a [state] for step 4). *)
Record Env : Type := mkEnv {
  now : Z;
  freshSessionId : string;
  freshState : string
}.

(** Modelled from the spec: the results of [authorize] (section 4.3),
    with the status of a denial (403, or 401 and 502 from section 7). *)
Inductive Decision : Type :=
| Allow (claims : Kc.Token)
| Redirect (url : string)
| Deny (status : Z).

(** Modelled from the spec: the calls made to the Identity Provider Client
    while a request is served. *)
Inductive Call : Type :=
| CallVerify (accessToken : string)
| CallRefresh (refreshToken : string)
| CallExchange (code : string).

(** Modelled from the spec: what [authorize] leaves behind, its decision,
    the new state, the cookie it sets and the provider calls it made. *)
Record Result : Type := mkResult {
  decision : Decision;
  state : State;
  setCookie : option string;
  calls : list Call
}.

Section Authorize.
Variable s : Service.
Variable idp : Provider.
Variable env : Env.
Variable p : RolePredicate.
Variable request : Incoming.

(** Modelled from the spec: step 6 of section 4.3. *)
Definition decide (claims : Kc.Token) : Decision :=
  if eval p (Kc.role_set claims) then Allow claims else Deny 403.

(** Modelled from the spec: step 4 of section 4.3 and the taxonomy of
    section 7; an unauthenticated browser navigation is sent to the
    provider with a fresh [state] and this same route as callback, any
    other unauthenticated request gets 401. *)
Definition unauthenticated (st : State) (made : list Call) : Result :=
  if interactive request then
    mkResult
      (Redirect (buildAuthorizationUrl idp (clientId s) (baseUrl s +:+ path request)
                   (freshState env)))
      (mkState (sessions st) (Some (mkPending (freshState env) (path request))))
      None made
  else mkResult (Deny 401) st None made.

(** Modelled from the spec: claims are only ever taken from a token the
    provider verified (section 4.2, [verify]). *)
Definition with_claims (accessTok : string) (st : State) (made : list Call) : Result :=
  let made' := (made ++ [CallVerify accessTok])%list in
  match verify idp accessTok (now env) with
  | inr claims => mkResult (decide claims) st None made'
  | inl _ => unauthenticated st made'
  end.

(** Modelled from the spec: steps 2 and 3 of section 4.3. *)
Definition by_session (st : State) : Result :=
  match cookie_sid request with
  | None => unauthenticated st []
  | Some sessionId =>
      match get s sessionId (sessions st) with
      | None => unauthenticated st []
      | Some r =>
          if accessTokenExpiry (tokenSet r) <=? now env then
            match refreshToken (tokenSet r) with
            | Some rt =>
                match refresh idp rt with
                | Some ts' =>
                    with_claims (accessToken ts')
                      (mkState (update s sessionId ts' (sessions st)) (pending st))
                      [CallRefresh rt]
                | None => unauthenticated st [CallRefresh rt]
                end
            | None => unauthenticated st []
            end
          else with_claims (accessToken (tokenSet r)) st []
      end
  end.

(** Modelled from the spec: step 5 of section 4.3. The code is exchanged,
    the record created or updated, the cookie set and the browser sent to
    the clean URL. A rejected code is an [InvalidGrant]: unauthenticated. *)
Definition callback (code : string) (st : State) : Result :=
  let made := [CallExchange code] in
  match exchangeCodeForTokens idp (clientId s) code (baseUrl s +:+ path request) with
  | inr ts =>
      match cookie_sid request with
      | Some sessionId =>
          match get s sessionId (sessions st) with
          | Some _ =>
              mkResult (Redirect (path request))
                (mkState (update s sessionId ts (sessions st)) (pending st))
                (Some sessionId) made
          | None =>
              mkResult (Redirect (path request))
                (mkState (create s (freshSessionId env) (now env) ts (sessions st)) (pending st))
                (Some (freshSessionId env)) made
          end
      | None =>
          mkResult (Redirect (path request))
            (mkState (create s (freshSessionId env) (now env) ts (sessions st)) (pending st))
            (Some (freshSessionId env)) made
      end
  | inl InvalidGrant => unauthenticated st made
  | inl NetworkFailure => mkResult (Deny 502) st None made
  end.

(** Modelled from the spec: [authorize] of section 4.3. A bearer credential
    is verified directly and no session is looked up. A request that
    carries a code is a callback only when its [state] equals the pending
    one; the pending state is compared once and dropped either way. *)
Definition authorize (st : State) : Result :=
  match bearer request with
  | Some tok =>
      match verify idp tok (now env) with
      | inr claims => mkResult (decide claims) st None [CallVerify tok]
      | inl _ => mkResult (Deny 401) st None [CallVerify tok]
      end
  | None =>
      match query_code request, query_state request, pending st with
      | Some code, Some given, Some expected =>
          let st' := mkState (sessions st) None in
          if String.eqb given (pendingState expected)
          then callback code st'
          else by_session st'
      | _, _, _ => by_session st
      end
  end.

End Authorize.

Definition is_allow (d : Decision) : bool :=
  match d with Allow _ => true | _ => false end.

Definition is_redirect (d : Decision) : bool :=
  match d with Redirect _ => true | _ => false end.


End Gate.

(** ** Reading results *)

(** The three components of what a logout handler returns. *)
Definition logout_store (r : Redis.Store * list LogEntry * Http.Response) : Redis.Store :=
  fst (fst r).
Definition logout_log (r : Redis.Store * list LogEntry * Http.Response) : list LogEntry :=
  snd (fst r).
Definition logout_response (r : Redis.Store * list LogEntry * Http.Response) : Http.Response :=
  snd r.

(** The JSON document of a response, if it has one. *)
Definition json_of (r : Http.Response) : option Js.Json :=
  match Http.body r with
  | Http.JsonBody j => Some j
  | _ => None
  end.

(** Property read on the JSON document of a response. *)
Definition field (k : string) (r : Http.Response) : option Js.Json :=
  json_of r ≫= Js.get k.

(** The body a caller of the sibling would have seen directly. *)
Definition direct_body (b : Http.UpstreamResponse) : Http.Body :=
  match Http.up_body b with
  | Http.Parses j => Http.JsonBody j
  | Http.NotJson raw _ => Http.TextBody raw
  end.

(** A proxy's answer is the sibling's own: same status, same body. *)
Definition same_as_upstream (a : Http.Response) (b : Http.UpstreamResponse) : Prop :=
  Http.status a = Http.up_status b ∧ Http.body a = direct_body b.

(** A proxy route surfaces the sibling's 403 unchanged. *)
Definition proxy_surfaces_denial
    (proxy : Config -> (Http.Outbound -> Http.FetchResult) -> Kc.Grant -> Http.Response)
    : Prop :=
  forall cfg g b, Http.up_status b = 403 ->
    same_as_upstream (proxy cfg (fun _ => Http.Resolved b) g) b.

(** A browser has a record exactly when [condition] says so, whatever it
    did and whatever the store held before, as long as the identifiers
    generated for it were not in use already. *)
Definition record_iff (s : Lifecycle.Service) (condition : bool -> Lifecycle.Event -> bool)
    : Prop :=
  forall redis0 trace,
    (forall id, id ∈ Lifecycle.ids trace ->
       redis0 !! Session.key (Lifecycle.options s) id = None) ->
    Lifecycle.holds_record s (Lifecycle.ids trace)
      (Lifecycle.run s (Lifecycle.mkBrowser redis0 None) trace)
    = fold_left condition trace false.

(** The store holds at most one record of the browser, the one its cookie
    names, and the cookie is one of the generated identifiers. *)
Definition tidy (s : Lifecycle.Service) (generated : list string) (b : Lifecycle.Browser)
    : Prop :=
  (forall id, id ∈ generated ->
     is_Some (Lifecycle.redis b !! Session.key (Lifecycle.options s) id) ->
     Lifecycle.cookie b = Some id)
  ∧ (forall c, Lifecycle.cookie b = Some c -> c ∈ generated).

(** ** The demo realm (README: users and roles) *)

Definition demo_content (username : string) (roles : list string) : Kc.Content :=
  Kc.mkContent ("id-" +:+ username) (Some username) None
    (Some (username +:+ "@example.com")) (Some roles) [] 1706400000.

Definition demo_token (client username : string) (roles : list string) : Kc.Token :=
  Kc.mkToken ("jwt-" +:+ username) client (demo_content username roles).

Definition admin_user : Kc.Token :=
  demo_token "admin-portal" "admin" ["admin"; "default-roles-demo"].

Definition cs_user : Kc.Token :=
  demo_token "cs-portal" "csuser" ["cs"; "default-roles-demo"].

Definition grant_of (t : Kc.Token) : Kc.Grant := Kc.mkGrant t (Some "refresh") None.

(** The answer of a service whose guard denies a bearer request
    (docs: [403 Forbidden - Access denied]); the body is plain text. *)
Definition access_denied_403 : Http.UpstreamResponse :=
  Http.mkUpstream 403 (Http.NotJson "Access denied" "Unexpected token A in JSON at position 0").

(** ** Reading the gate *)

(** Claims [c] reach the gate with this request: through a bearer
    credential the provider verifies, or through the cookie of a stored
    session whose access token is current and verifies. *)
Inductive authenticated (s : Gate.Service) (idp : Gate.Provider) (env : Gate.Env)
    (st : Gate.State) (request : Incoming) (c : Kc.Token) : Prop :=
| by_bearer (tok : string) :
    bearer request = Some tok ->
    Gate.verify idp tok (Gate.now env) = inr c ->
    authenticated s idp env st request c
| by_cookie (sessionId : string) (r : Gate.SessionRecord) :
    bearer request = None ->
    query_code request = None ->
    cookie_sid request = Some sessionId ->
    Gate.get s sessionId (Gate.sessions st) = Some r ->
    Gate.now env < Gate.accessTokenExpiry (Gate.tokenSet r) ->
    Gate.verify idp (Gate.accessToken (Gate.tokenSet r)) (Gate.now env) = inr c ->
    authenticated s idp env st request c.


(** A provider for the demo realm: it knows the two users' tokens, one
    authorization code and one refresh token. *)
Definition demo_verify (tok : string) (now : Z) : Gate.VerifyError + Kc.Token :=
  match List.find (fun t => String.eqb tok (Kc.token t)) [admin_user; cs_user] with
  | Some t => if Kc.exp (Kc.content t) <=? now then inl Gate.Expired else inr t
  | None => inl Gate.BadSignature
  end.

Definition admin_tokens : Gate.TokenSet :=
  Gate.mkTokenSet "jwt-admin" (Some "refresh-admin") None 1706400000.

Definition stale_tokens : Gate.TokenSet :=
  Gate.mkTokenSet "jwt-admin-old" (Some "refresh-admin") None 1000.

Definition cs_tokens : Gate.TokenSet :=
  Gate.mkTokenSet "jwt-csuser" None None 1706400000.

Definition demo_idp : Gate.Provider :=
  Gate.mkProvider "http://localhost:8080/realms/demo/protocol/openid-connect/auth"
    demo_verify
    (fun _ code _ => if String.eqb code "code-1" then inr admin_tokens
                     else inl Gate.InvalidGrant)
    (fun rt => if String.eqb rt "refresh-admin" then Some admin_tokens else None).

Definition admin_gate : Gate.Service :=
  Gate.mkService "admin-portal" "http://localhost:3001" "admin-portal".

Definition demo_env : Gate.Env := Gate.mkEnv 5000 "sid-1" "state-1".

Definition demo_sessions : Gate.Sessions :=
  <[Gate.key admin_gate "sid-cs" := Gate.mkRecord cs_tokens 0 0]>
    (<[Gate.key admin_gate "sid-stale" := Gate.mkRecord stale_tokens 0 0]> ∅).

Definition admin_sessions : Gate.Sessions :=
  <[Gate.key admin_gate "sid-admin" := Gate.mkRecord admin_tokens 0 0]> demo_sessions.

Definition browser_get (sid : option string) (code state : option string) : Incoming :=
  mkIncoming "/dashboard" None sid code state true.

Definition bearer_get (tok : string) : Incoming :=
  mkIncoming "/api/profits" (Some tok) None None None false.

(** Two logouts in a row, the second presenting the cookie the first one
    was sent with (stale by then): what each did and answered. *)
Definition double_logout (s : Lifecycle.Service) (redis : Redis.Store)
    (sid n1 n2 : string)
    : (Lifecycle.Browser * Http.Response) * (Lifecycle.Browser * Http.Response) :=
  let first :=
    Lifecycle.serve (Lifecycle.options s) (Lifecycle.logout s) n1
      (Lifecycle.mkBrowser redis (Some sid)) in
  let stale := Lifecycle.mkBrowser (Lifecycle.redis (fst first)) (Some sid) in
  (first, Lifecycle.serve (Lifecycle.options s) (Lifecycle.logout s) n2 stale).

(** The second logout is answered like the first, with the redirect, and
    no record is left under the identifier after either. *)
Definition logout_is_idempotent (s : Lifecycle.Service) : Prop :=
  forall redis sid n1 n2,
    let first := fst (double_logout s redis sid n1 n2) in
    let second := snd (double_logout s redis sid n1 n2) in
    snd second = snd first
    ∧ Http.status (snd second) = 302
    ∧ Lifecycle.redis (fst first) !! Session.key (Lifecycle.options s) sid = None
    ∧ Lifecycle.redis (fst second) !! Session.key (Lifecycle.options s) sid = None
    ∧ Lifecycle.cookie (fst second) = None.

(** A logout handler run twice on one identifier, store reachable: no
    error is logged either time and the second run changes nothing. *)
Definition handler_is_idempotent
    (h : Redis.Faults -> string -> Redis.Store -> Redis.Store * list LogEntry * Http.Response)
    : Prop :=
  forall id store,
    let once := h Redis.no_faults id store in
    let twice := h Redis.no_faults id (logout_store once) in
    errors (logout_log once) = [] ∧ errors (logout_log twice) = []
    ∧ logout_store twice = logout_store once
    ∧ logout_response twice = logout_response once.

(** ** The rest of the services *)

(** [process.env.X || fallback]: an unset variable and an empty one both
    give the fallback (the empty string is falsy). *)
Definition env_or (v : option string) (fallback : string) : string :=
  match v with
  | Some s => if String.eqb s "" then fallback else s
  | None => fallback
  end.

(** The URL constants at the top of both Redis-backed app.js files, read
    from [process.env]. *)
Definition config_of_env (env : string -> option string) : Config :=
  mkConfig (env_or (env "KEYCLOAK_URL") "http://localhost:8080")
           (env_or (env "CS_PORTAL_URL") "http://localhost:3002")
           (env_or (env "ADMIN_PORTAL_URL") "http://localhost:3001").

(** [REDIS_URL], the same in both services. *)
Definition redis_url_of_env (env : string -> option string) : string :=
  env_or (env "REDIS_URL") "redis://localhost:6379".

(** What [fetch] hands to a proxy when the sibling's route answered [r]:
    the status, and a body that parses when the route answered with
    [res.json]. *)
Definition served (r : Http.Response) : Http.UpstreamResponse :=
  Http.mkUpstream (Http.status r)
    match Http.body r with
    | Http.JsonBody j => Http.Parses j
    | Http.TextBody t => Http.NotJson t "Unexpected token"
    | Http.View name _ => Http.NotJson name "Unexpected token <"
    | Http.NoBody => Http.NotJson "" "Unexpected end of JSON input"
    end.

(** The locals a rendered view was given. *)
Definition locals_of (r : Http.Response) : option Js.Json :=
  match Http.body r with
  | Http.View _ locals => Some locals
  | _ => None
  end.

(** An uppercase hexadecimal digit. *)
Definition is_hex (c : ascii) : bool :=
  existsb (Ascii.eqb c) (list_ascii_of_string "0123456789ABCDEF").

(** A string in which every character is unreserved or starts a percent
    escape of two uppercase hexadecimal digits. *)
Fixpoint well_escaped (s : string) : bool :=
  match s with
  | EmptyString => true
  | String c rest =>
      if Ascii.eqb c "%"%char then
        match rest with
        | String h1 (String h2 rest') => is_hex h1 && is_hex h2 && well_escaped rest'
        | _ => false
        end
      else Uri.unreserved c && well_escaped rest
  end.

(** The number of UTF-8 bytes of the JavaScript string that [s] stands
    for (not its JavaScript [length], which counts UTF-16 units). *)
Definition utf8_length (s : string) : nat := String.length s.

(** Every character of the string is unreserved. *)
Fixpoint all_unreserved (s : string) : bool :=
  match s with
  | EmptyString => true
  | String c rest => Uri.unreserved c && all_unreserved rest
  end.

(** The value of a hexadecimal digit, and the byte a percent escape
    stands for. *)
Definition hexval (c : ascii) : nat :=
  let n := nat_of_ascii c in
  if Uri.between 48 57 n then (n - 48)%nat else (n - 55)%nat.

Definition unescape (s : string) : ascii :=
  match s with
  | String _ (String h1 (String h2 _)) => ascii_of_nat (hexval h1 * 16 + hexval h2)
  | _ => zero
  end.

(** A character that cannot act as a delimiter in a URL query: unreserved,
    or the percent sign of an escape. *)
Definition url_safe (c : ascii) : bool := Uri.unreserved c || Ascii.eqb c "%"%char.

Fixpoint all_url_safe (s : string) : bool :=
  match s with
  | EmptyString => true
  | String c rest => url_safe c && all_url_safe rest
  end.

(** A logout route that answers every request with the redirect to
    [target] and the session cookie cleared, whatever the store does. *)
Definition always_redirects
    (route : Config -> Redis.Answers -> string -> Redis.Store
             -> Redis.Store * list LogEntry * option Http.Response)
    (target : Config -> string) : Prop :=
  forall cfg a sid redis,
    snd (route cfg a sid redis)
    = Some (Http.mkResponse 302 Http.NoBody (Some (target cfg)) ["connect.sid"]).

(** * Properties *)

(** ** Store keys *)

Lemma admin_key_not_cs_key (X Y : string) :
  Session.key AdminPortal.session_options X ≠ Session.key CsPortal.session_options Y.
Proof. unfold Session.key. simpl. discriminate. Qed.

(** C5. The two services' store keys never collide. For all raw session
    identifiers X and Y (equal or not): the Admin Portal key of X differs
    from the CS Portal key of Y; a session Admin Portal stores under X is
    not what CS Portal's session middleware loads for any cookie Y; and a
    CS Portal logout of session X, with or without store failures, leaves
    Admin Portal's record of X as it was (and the other way round). *)
Theorem session_namespaces_isolated (X Y newid : string) (d : Redis.SessionData)
    (redis : Redis.Store) (cfg : Config) (f : Redis.Faults) :
  Session.key AdminPortal.session_options X ≠ Session.key CsPortal.session_options Y
  ∧ Session.load CsPortal.session_options
      (<[Session.key AdminPortal.session_options X := d]> redis) (Some Y) newid
    = Session.load CsPortal.session_options redis (Some Y) newid
  ∧ logout_store (CsPortal.auth_logout cfg f X redis)
      !! Session.key AdminPortal.session_options X
    = redis !! Session.key AdminPortal.session_options X
  ∧ logout_store (AdminPortal.auth_logout cfg f X redis)
      !! Session.key CsPortal.session_options X
    = redis !! Session.key CsPortal.session_options X.
Proof.
  pose proof (admin_key_not_cs_key X Y) as Hne.
  pose proof (admin_key_not_cs_key X X) as Hself.
  repeat split.
  - exact Hne.
  - unfold Session.load. by rewrite lookup_insert_ne.
  - unfold CsPortal.auth_logout, Redis.session_destroy, Redis.del, logout_store.
    destruct (Redis.destroy_error f), (Redis.del_error f); simpl;
      rewrite ?lookup_delete_ne; auto.
  - unfold AdminPortal.auth_logout, Redis.session_destroy, Redis.del, logout_store.
    destruct (Redis.destroy_error f), (Redis.del_error f); simpl;
      rewrite ?lookup_delete_ne; auto.
Qed.

(** ** Logout *)

Lemma admin_logout_store (cfg : Config) (sid : string) (redis : Redis.Store) :
  logout_store (AdminPortal.auth_logout cfg Redis.no_faults sid redis)
  = delete (Session.key AdminPortal.session_options sid) redis.
Proof.
  unfold AdminPortal.auth_logout, logout_store, Session.key. simpl.
  apply map_eq. intros k.
  destruct (decide (AdminPortal.prefix +:+ sid = k)) as [<-|Hk].
  - by rewrite !lookup_delete_eq.
  - by rewrite !lookup_delete_ne.
Qed.

Lemma cs_logout_store (cfg : Config) (sid : string) (redis : Redis.Store) :
  logout_store (CsPortal.auth_logout cfg Redis.no_faults sid redis)
  = delete (Session.key CsPortal.session_options sid) redis.
Proof.
  unfold CsPortal.auth_logout, logout_store, Session.key. simpl.
  apply map_eq. intros k.
  destruct (decide (CsPortal.prefix +:+ sid = k)) as [<-|Hk].
  - by rewrite !lookup_delete_eq.
  - by rewrite !lookup_delete_ne.
Qed.

(** C9, as stated, fails when a store call never settles: the response
    is written only after [req.session.destroy] called back and the awaited
    delete settled, so a request whose delete stays pending gets no
    response at all. *)
Lemma logout_without_response :
  ¬ always_redirects AdminPortal.auth_logout_answer AdminPortal.logoutUrl.
Proof.
  intros H. specialize (H default_config (Redis.DelPending None) "s1" ∅).
  discriminate H.
Qed.

(** C9, amended. Whenever both store calls of [/auth/logout] settle, with
    a value or with an error, the response is a 302 redirect to the
    provider's end-session URL, that is [KEYCLOAK_URL] followed by
    [/realms/demo/protocol/openid-connect/logout?redirect_uri=] and the
    encoded portal URL with a slash appended, and the [connect.sid] cookie
    is cleared; a failing destruction or a failing delete only adds an
    error line to the log. When a call never settles no response is
    written. For both services. *)
Theorem auth_logout_redirects_once_settled (cfg : Config) (f : Redis.Faults)
    (destroy_failed : option string) (sid : string) (redis : Redis.Store) :
  let admin := AdminPortal.auth_logout_answer cfg (Redis.Settle f) sid redis in
  let cs := CsPortal.auth_logout_answer cfg (Redis.Settle f) sid redis in
  let logged :=
    (match Redis.destroy_error f with
     | Some e => [LogError "Session destruction error:" e]
     | None => []
     end ++
     match Redis.del_error f with
     | Some e => [LogError "Redis delete error:" e]
     | None => []
     end)%list in
  snd admin
  = Some (Http.mkResponse 302 Http.NoBody
            (Some (KEYCLOAK_URL cfg
                   +:+ "/realms/demo/protocol/openid-connect/logout?redirect_uri="
                   +:+ Uri.encodeURIComponent (ADMIN_PORTAL_URL cfg +:+ "/")))
            ["connect.sid"])
  ∧ snd cs
    = Some (Http.mkResponse 302 Http.NoBody
              (Some (KEYCLOAK_URL cfg
                     +:+ "/realms/demo/protocol/openid-connect/logout?redirect_uri="
                     +:+ Uri.encodeURIComponent (CS_PORTAL_URL cfg +:+ "/")))
              ["connect.sid"])
  ∧ errors (snd (fst admin)) = logged
  ∧ errors (snd (fst cs)) = logged
  ∧ snd (AdminPortal.auth_logout_answer cfg Redis.DestroyPending sid redis) = None
  ∧ snd (CsPortal.auth_logout_answer cfg Redis.DestroyPending sid redis) = None
  ∧ snd (AdminPortal.auth_logout_answer cfg (Redis.DelPending destroy_failed) sid redis) = None
  ∧ snd (CsPortal.auth_logout_answer cfg (Redis.DelPending destroy_failed) sid redis) = None.
Proof.
  unfold AdminPortal.auth_logout_answer, CsPortal.auth_logout_answer,
    AdminPortal.auth_logout, CsPortal.auth_logout, Redis.session_destroy, Redis.del.
  destruct f as [[e1|] [e2|]], destroy_failed; simpl; repeat split; reflexivity.
Qed.

(** What one [/auth/logout] request does to the browser and the store. *)
Lemma serve_admin_logout (cfg : Config) (n : string) (b : Lifecycle.Browser) :
  let o := AdminPortal.session_options in
  Lifecycle.serve o (Lifecycle.admin_logout cfg Redis.no_faults) n b
  = (Lifecycle.mkBrowser
       (delete (Session.key o
                  (Session.sid (Session.load o (Lifecycle.redis b) (Lifecycle.cookie b) n)))
               (Lifecycle.redis b))
       None,
     Http.redirect ["connect.sid"] (AdminPortal.logoutUrl cfg)).
Proof.
  cbv zeta. unfold Lifecycle.serve, Lifecycle.admin_logout.
  pose proof (admin_logout_store cfg
    (Session.sid (Session.load AdminPortal.session_options
                    (Lifecycle.redis b) (Lifecycle.cookie b) n)) (Lifecycle.redis b)) as Hs.
  unfold logout_store in Hs.
  destruct (AdminPortal.auth_logout _ _ _ _) as [[r lg] resp] eqn:Hl.
  cbn in Hs. subst r.
  assert (resp = Http.redirect ["connect.sid"] (AdminPortal.logoutUrl cfg)) as ->.
  { unfold AdminPortal.auth_logout in Hl. cbn in Hl. by inversion Hl. }
  reflexivity.
Qed.

Lemma serve_cs_logout (cfg : Config) (n : string) (b : Lifecycle.Browser) :
  let o := CsPortal.session_options in
  Lifecycle.serve o (Lifecycle.cs_logout cfg Redis.no_faults) n b
  = (Lifecycle.mkBrowser
       (delete (Session.key o
                  (Session.sid (Session.load o (Lifecycle.redis b) (Lifecycle.cookie b) n)))
               (Lifecycle.redis b))
       None,
     Http.redirect ["connect.sid"] (CsPortal.logoutUrl cfg)).
Proof.
  cbv zeta. unfold Lifecycle.serve, Lifecycle.cs_logout.
  pose proof (cs_logout_store cfg
    (Session.sid (Session.load CsPortal.session_options
                    (Lifecycle.redis b) (Lifecycle.cookie b) n)) (Lifecycle.redis b)) as Hs.
  unfold logout_store in Hs.
  destruct (CsPortal.auth_logout _ _ _ _) as [[r lg] resp] eqn:Hl.
  cbn in Hs. subst r.
  assert (resp = Http.redirect ["connect.sid"] (CsPortal.logoutUrl cfg)) as ->.
  { unfold CsPortal.auth_logout in Hl. cbn in Hl. by inversion Hl. }
  reflexivity.
Qed.

(** Whichever session the middleware hands to the logout route, the
    record under the presented cookie is gone afterwards. *)
Lemma presented_record_gone (o : Session.Options) (redis : Redis.Store) (sid n : string) :
  delete (Session.key o (Session.sid (Session.load o redis (Some sid) n))) redis
    !! Session.key o sid = None.
Proof.
  unfold Session.load.
  destruct (redis !! Session.key o sid) as [d|] eqn:Hd; cbn [Session.sid].
  - apply lookup_delete_eq.
  - apply lookup_delete_None. by right.
Qed.

Lemma delete_twice (k : string) (redis : Redis.Store) :
  delete k (delete k redis) = delete k redis.
Proof.
  apply map_eq. intros k'. destruct (decide (k = k')) as [<-|Hk].
  - by rewrite !lookup_delete_eq.
  - by rewrite !lookup_delete_ne.
Qed.

(** C4. Logout is idempotent, for both services and with the store
    reachable. A second [/auth/logout] that presents the same, by then
    stale, session cookie gets the same redirect as the first; no record is
    left under that identifier after either call; the handler run twice on
    one identifier logs no error either time and leaves the store as after
    one run, so destroying an identifier the store does not hold is no
    error. *)
Theorem logout_idempotent (cfg : Config) :
  logout_is_idempotent (Lifecycle.admin_portal cfg)
  ∧ logout_is_idempotent (Lifecycle.cs_portal cfg)
  ∧ handler_is_idempotent (AdminPortal.auth_logout cfg)
  ∧ handler_is_idempotent (CsPortal.auth_logout cfg).
Proof.
  split; [|split; [|split]].
  - intros redis sid n1 n2. unfold double_logout.
    cbn [Lifecycle.options Lifecycle.logout Lifecycle.admin_portal].
    rewrite !serve_admin_logout. cbn [fst snd Lifecycle.redis Lifecycle.cookie].
    repeat split; apply presented_record_gone.
  - intros redis sid n1 n2. unfold double_logout.
    cbn [Lifecycle.options Lifecycle.logout Lifecycle.cs_portal].
    rewrite !serve_cs_logout. cbn [fst snd Lifecycle.redis Lifecycle.cookie].
    repeat split; apply presented_record_gone.
  - intros id store. cbv zeta. rewrite !admin_logout_store.
    repeat split. apply delete_twice.
  - intros id store. cbv zeta. rewrite !cs_logout_store.
    repeat split. apply delete_twice.
Qed.

(** ** The profits API *)

(** C10. Every answer of Admin Portal's [/api/profits] handler is a 200
    JSON document whose [success] is [true], whose [requestedBy] is the
    token's [preferred_username] (absent when the claim is), and whose
    [data] is the same three-row dataset for every caller. *)
Theorem api_profits_deterministic (g g' : Kc.Grant) :
  let r := AdminPortal.api_profits g in
  Http.status r = 200
  ∧ field "success" r = Some (Js.JBool true)
  ∧ field "requestedBy" r
    = Js.JStr <$> Kc.preferred_username (Kc.content (Kc.access_token g))
  ∧ field "data" r = Some AdminPortal.profits
  ∧ (exists a b c, AdminPortal.profits = Js.JArr [a; b; c])
  ∧ field "data" (AdminPortal.api_profits g') = field "data" r
  ∧ (Kc.preferred_username (Kc.content (Kc.access_token g))
     = Kc.preferred_username (Kc.content (Kc.access_token g'))
     -> AdminPortal.api_profits g = AdminPortal.api_profits g').
Proof.
  cbv zeta. unfold AdminPortal.api_profits, field, json_of.
  destruct (Kc.preferred_username (Kc.content (Kc.access_token g))) as [u|];
    destruct (Kc.preferred_username (Kc.content (Kc.access_token g'))) as [u'|];
    cbn; (split; [reflexivity|]); (split; [reflexivity|]); (split; [reflexivity|]);
    (split; [reflexivity|]); (split; [unfold AdminPortal.profits; eauto|]);
    (split; [reflexivity|]); intros Heq; congruence.
Qed.

(** ** Cross-service calls *)

(** C2, as stated, fails on CS Portal's [/api/profits] proxy: when Admin
    Portal answers 403 with its own text, the proxy answers 403 with a
    message of its own in place of the sibling's. *)
Lemma cs_proxy_substitutes_message : ¬ proxy_surfaces_denial CsPortal.api_profits.
Proof.
  intros H.
  destruct (H default_config (grant_of cs_user) access_denied_403 eq_refl) as [_ Hbody].
  discriminate Hbody.
Qed.

(** Admin Portal's [/api/customers] proxy does not look at the sibling's
    status at all: a JSON body that comes with a 403 is passed on as a 200. *)
Remark admin_proxy_ignores_status (j : Js.Json) :
  AdminPortal.api_customers default_config
    (fun _ => Http.Resolved (Http.mkUpstream 403 (Http.Parses j))) (grant_of admin_user)
  = Http.json j.
Proof. reflexivity. Qed.

(** C2, amended. CS Portal's [/api/profits] proxy calls Admin Portal with
    the caller's own token as bearer credential, and when the sibling's
    answer is not a 2xx (a 403 in particular) the proxy answers with the
    sibling's status code and the fixed body [access_denied]: nothing of
    the sibling's body reaches the caller, the sibling's own reason
    included. *)
Theorem cs_proxy_carries_status (cfg : Config) (fetch : Http.Outbound -> Http.FetchResult)
    (g : Kc.Grant) (b : Http.UpstreamResponse) :
  fetch (Http.mkOutbound (ADMIN_PORTAL_URL cfg +:+ "/api/profits")
           ("Bearer " +:+ Kc.token (Kc.access_token g))) = Http.Resolved b ->
  Http.ok b = false ->
  let a := CsPortal.api_profits cfg fetch g in
  Http.status a = Http.up_status b
  ∧ Http.body a = Http.JsonBody CsPortal.access_denied
  ∧ (Http.up_status b = 403 -> Http.status a = 403)
  ∧ (forall b', Http.up_status b' = Http.up_status b -> Http.ok b' = false ->
       CsPortal.api_profits cfg (fun _ => Http.Resolved b') g = a).
Proof.
  intros Hfetch Hok. cbv zeta. unfold CsPortal.api_profits. rewrite Hfetch, Hok. cbn.
  repeat split; auto.
  intros b' Hst Hok'. rewrite Hok'. cbn. by rewrite Hst.
Qed.

Lemma cs_proxy_carries_status_witness :
  let a := CsPortal.api_profits default_config (fun _ => Http.Resolved access_denied_403)
             (grant_of cs_user) in
  Http.status a = 403 ∧ Http.body a = Http.JsonBody CsPortal.access_denied.
Proof.
  cbv zeta.
  destruct (cs_proxy_carries_status default_config
              (fun _ => Http.Resolved access_denied_403) (grant_of cs_user)
              access_denied_403 eq_refl eq_refl) as (Hs & Hb & _).
  split; [exact Hs | exact Hb].
Defined.

(** ** The life of a session record *)

Lemma lookup_insert_is_some (redis : Redis.Store) (k : string) (d : Redis.SessionData) :
  bool_decide (is_Some (<[k := d]> redis !! k)) = true.
Proof. apply bool_decide_eq_true_2. rewrite lookup_insert_eq. eauto. Qed.

Lemma session_key_eq (o : Session.Options) (a b : string) :
  Session.key o a = Session.key o b -> a = b.
Proof. unfold Session.key. apply String.app_inj. Qed.

(** What the session middleware hands to a handler. *)
Lemma load_cases (o : Session.Options) (redis : Redis.Store) (c : option string)
    (n : string) :
  let l := Session.load o redis c n in
  (Session.isNew l = false ∧ c = Some (Session.sid l)
   ∧ redis !! Session.key o (Session.sid l) = Some (Session.data l))
  ∨ (Session.isNew l = true ∧ Session.sid l = n ∧ Session.data l = Redis.empty_session
     ∧ forall id, c = Some id -> redis !! Session.key o id = None).
Proof.
  cbv zeta. unfold Session.load. destruct c as [id|].
  - destruct (redis !! Session.key o id) as [d|] eqn:Hd; cbn.
    + left. auto.
    + right. repeat split. by intros ? [= <-].
  - right. cbn. repeat split. discriminate.
Qed.

(** A request whose handler keeps the session and clears no cookie. *)
Lemma serve_kept (o : Session.Options) (h : Lifecycle.Handler) (n : string)
    (b : Lifecycle.Browser) (m : bool) (d : Redis.SessionData) (resp : Http.Response) :
  let l := Session.load o (Lifecycle.redis b) (Lifecycle.cookie b) n in
  h l (Lifecycle.redis b) = Lifecycle.mkOutcome (Lifecycle.redis b) (Session.Kept m d) resp ->
  Http.clearedCookies resp = [] ->
  fst (Lifecycle.serve o h n b)
  = if Session.should_save o l m
    then Lifecycle.mkBrowser (<[Session.key o (Session.sid l) := d]> (Lifecycle.redis b))
           (if Session.isNew l then Some (Session.sid l) else Lifecycle.cookie b)
    else b.
Proof.
  cbv zeta. intros Hh Hc. destruct b as [r c]. unfold Lifecycle.serve.
  cbn [Lifecycle.redis Lifecycle.cookie] in *. rewrite Hh.
  cbn [Lifecycle.fate Lifecycle.after Lifecycle.response Session.finish]. rewrite Hc.
  by destruct (Session.should_save _ _ _).
Qed.

Section Tidy.
Variable s : Lifecycle.Service.
Variable generated : list string.

Lemma holds_is_has (b : Lifecycle.Browser) :
  tidy s generated b ->
  Lifecycle.holds_record s generated b = Lifecycle.has_record s b.
Proof.
  intros [Hone Hin]. unfold Lifecycle.holds_record, Lifecycle.has_record.
  apply eq_true_iff_eq. rewrite existsb_exists. split.
  - intros (id & Hid & Hrec). apply list_elem_of_In in Hid.
    apply bool_decide_eq_true_1 in Hrec. rewrite (Hone id Hid Hrec).
    by apply bool_decide_eq_true_2.
  - destruct (Lifecycle.cookie b) as [c|] eqn:Hc; [|discriminate].
    intros Hrec. exists c. split; [|exact Hrec]. apply list_elem_of_In. by apply Hin.
Qed.

(** Saving the session of the request keeps the store tidy. *)
Lemma tidy_saved (b : Lifecycle.Browser) (n : string) (d : Redis.SessionData) :
  tidy s generated b -> n ∈ generated ->
  let l := Session.load (Lifecycle.options s) (Lifecycle.redis b) (Lifecycle.cookie b) n in
  let b' := Lifecycle.mkBrowser (<[Session.key (Lifecycle.options s) (Session.sid l) := d]> (Lifecycle.redis b))
              (if Session.isNew l then Some (Session.sid l) else Lifecycle.cookie b) in
  tidy s generated b' ∧ Lifecycle.has_record s b' = true.
Proof.
  intros [Hone Hin] Hn. cbv zeta.
  pose proof (load_cases (Lifecycle.options s) (Lifecycle.redis b) (Lifecycle.cookie b) n) as Hl.
  cbv zeta in Hl.
  set (l := Session.load (Lifecycle.options s) (Lifecycle.redis b) (Lifecycle.cookie b) n) in *.
  destruct Hl as [(Hnew & Hc & Hrec) | (Hnew & Hsid & _ & Hnone)]; rewrite Hnew.
  - split; [split|].
    + cbn [Lifecycle.redis Lifecycle.cookie]. intros id Hid Hsome.
      destruct (decide (Session.key (Lifecycle.options s) (Session.sid l) = Session.key (Lifecycle.options s) id)) as [Heq|Hne].
      * apply session_key_eq in Heq. by rewrite <- Heq.
      * rewrite lookup_insert_ne in Hsome by exact Hne. by apply Hone.
    + cbn [Lifecycle.cookie]. exact Hin.
    + unfold Lifecycle.has_record. cbn [Lifecycle.redis Lifecycle.cookie]. rewrite Hc.
      apply lookup_insert_is_some.
  - rewrite Hsid. split; [split|].
    + cbn [Lifecycle.redis Lifecycle.cookie]. intros id Hid Hsome.
      destruct (decide (Session.key (Lifecycle.options s) n = Session.key (Lifecycle.options s) id)) as [Heq|Hne].
      * apply session_key_eq in Heq. by rewrite Heq.
      * rewrite lookup_insert_ne in Hsome by exact Hne.
        pose proof (Hone id Hid Hsome) as Hc. rewrite (Hnone id Hc) in Hsome.
        by destruct Hsome.
    + cbn [Lifecycle.cookie]. by intros c [= <-].
    + unfold Lifecycle.has_record. cbn [Lifecycle.redis Lifecycle.cookie].
      apply lookup_insert_is_some.
Qed.

(** Destroying the session of the request and clearing the cookie leaves
    no record of the browser. *)
Lemma tidy_destroyed (b : Lifecycle.Browser) (n : string) :
  tidy s generated b ->
  let l := Session.load (Lifecycle.options s) (Lifecycle.redis b) (Lifecycle.cookie b) n in
  let b' := Lifecycle.mkBrowser (delete (Session.key (Lifecycle.options s) (Session.sid l)) (Lifecycle.redis b))
              None in
  tidy s generated b' ∧ Lifecycle.has_record s b' = false.
Proof.
  intros [Hone Hin]. cbv zeta. split; [split|reflexivity]; [|discriminate].
  cbn [Lifecycle.redis Lifecycle.cookie]. intros id Hid Hsome. exfalso.
  apply lookup_delete_is_Some in Hsome as [Hne Hsome].
  pose proof (Hone id Hid Hsome) as Hc. apply Hne.
  unfold Session.load. rewrite Hc. destruct Hsome as [d Hd].
  by rewrite Hd.
Qed.

(** Expiry of the record the cookie names leaves none either. *)
Lemma tidy_expired (b : Lifecycle.Browser) :
  tidy s generated b ->
  let b' := match Lifecycle.cookie b with
            | Some id => Lifecycle.mkBrowser (delete (Session.key (Lifecycle.options s) id) (Lifecycle.redis b))
                           (Lifecycle.cookie b)
            | None => b
            end in
  tidy s generated b' ∧ Lifecycle.has_record s b' = false.
Proof.
  intros [Hone Hin]. cbv zeta. destruct (Lifecycle.cookie b) as [c|] eqn:Hc.
  - split; [split|].
    + cbn [Lifecycle.redis Lifecycle.cookie]. intros id Hid Hsome. exfalso.
      apply lookup_delete_is_Some in Hsome as [Hne Hsome].
      pose proof (Hone id Hid Hsome) as Hc'. congruence.
    + cbn [Lifecycle.cookie]. intros c' [= <-]. by apply Hin.
    + unfold Lifecycle.has_record. cbn [Lifecycle.redis Lifecycle.cookie].
      apply bool_decide_eq_false_2. rewrite lookup_delete_eq. by intros [? ?].
  - split; [split|].
    + intros id Hid Hsome. by pose proof (Hone id Hid Hsome).
    + intros c' Hc'. congruence.
    + unfold Lifecycle.has_record. by rewrite Hc.
Qed.

(** A session that was loaded, not generated, has its record. *)
Lemma loaded_has_record (b : Lifecycle.Browser) (n : string) :
  Session.isNew (Session.load (Lifecycle.options s) (Lifecycle.redis b) (Lifecycle.cookie b) n) = false ->
  Lifecycle.has_record s b = true.
Proof.
  intros Hnew.
  pose proof (load_cases (Lifecycle.options s) (Lifecycle.redis b) (Lifecycle.cookie b) n) as Hl.
  cbv zeta in Hl.
  set (l := Session.load (Lifecycle.options s) (Lifecycle.redis b) (Lifecycle.cookie b) n) in *.
  destruct Hl as [(_ & Hc & Hrec) | (Hnew' & _)]; [|congruence].
  unfold Lifecycle.has_record. rewrite Hc. apply bool_decide_eq_true_2.
  rewrite Hrec. eauto.
Qed.

Lemma grant_means_loaded (b : Lifecycle.Browser) (n g : string) :
  Redis.keycloak_token
    (Session.data (Session.load (Lifecycle.options s) (Lifecycle.redis b) (Lifecycle.cookie b) n)) = Some g ->
  Session.isNew (Session.load (Lifecycle.options s) (Lifecycle.redis b) (Lifecycle.cookie b) n) = false.
Proof.
  intros Hg.
  pose proof (load_cases (Lifecycle.options s) (Lifecycle.redis b) (Lifecycle.cookie b) n) as Hl.
  cbv zeta in Hl.
  set (l := Session.load (Lifecycle.options s) (Lifecycle.redis b) (Lifecycle.cookie b) n) in *.
  destruct Hl as [(Hnew & _) | (_ & _ & Hd & _)]; [exact Hnew|].
  rewrite Hd in Hg. discriminate Hg.
Qed.

End Tidy.

(** What a request whose handler keeps the session leaves behind. *)
Lemma served_kept (s : Lifecycle.Service) (generated : list string)
    (h : Lifecycle.Handler) (n : string) (b : Lifecycle.Browser) (m : bool)
    (d : Redis.SessionData) (resp : Http.Response) :
  let l := Session.load (Lifecycle.options s) (Lifecycle.redis b) (Lifecycle.cookie b) n in
  h l (Lifecycle.redis b) = Lifecycle.mkOutcome (Lifecycle.redis b) (Session.Kept m d) resp ->
  Http.clearedCookies resp = [] ->
  tidy s generated b -> n ∈ generated ->
  tidy s generated (fst (Lifecycle.serve (Lifecycle.options s) h n b))
  ∧ Lifecycle.has_record s (fst (Lifecycle.serve (Lifecycle.options s) h n b))
    = Session.should_save (Lifecycle.options s) l m || Lifecycle.has_record s b.
Proof.
  cbv zeta. intros Hh Hc Ht Hn.
  rewrite (serve_kept (Lifecycle.options s) h n b m d resp Hh Hc).
  destruct (Session.should_save _ _ m).
  - apply (tidy_saved s generated b n d Ht Hn).
  - by split.
Qed.

Section RedisBacked.
Variable s : Lifecycle.Service.
Variable generated : list string.
Hypothesis not_uninitialized : Session.saveUninitialized (Lifecycle.options s) = false.
Hypothesis no_resave : Session.resave (Lifecycle.options s) = false.
Hypothesis home_plain : Http.clearedCookies (Lifecycle.home s) = [].
Hypothesis logout_destroys : forall n b,
  fst (Lifecycle.serve (Lifecycle.options s) (Lifecycle.logout s) n b)
  = Lifecycle.mkBrowser
      (delete (Session.key (Lifecycle.options s)
                 (Session.sid (Session.load (Lifecycle.options s) (Lifecycle.redis b)
                                 (Lifecycle.cookie b) n)))
              (Lifecycle.redis b))
      None.

Lemma unmodified_not_saved (l : Session.Loaded) :
  Session.should_save (Lifecycle.options s) l false = false.
Proof.
  unfold Session.should_save. rewrite not_uninitialized, no_resave.
  by destruct (Session.isNew l).
Qed.

Lemma redis_step (b : Lifecycle.Browser) (e : Lifecycle.Event) :
  tidy s generated b ->
  (forall n, n ∈ Lifecycle.event_ids e -> n ∈ generated) ->
  tidy s generated (Lifecycle.step s b e)
  ∧ Lifecycle.has_record s (Lifecycle.step s b e)
    = Lifecycle.kept_by_redis (Lifecycle.has_record s b) e.
Proof.
  intros Ht Hids.
  destruct e as [n|n g|n| |n check status body loginUrl|n target];
    cbn [Lifecycle.step Lifecycle.kept_by_redis];
    try (assert (Hn : n ∈ generated) by (apply Hids; cbn; constructor)).
  - destruct (served_kept s generated (Lifecycle.public_page (Lifecycle.home s)) n b false
                _ (Lifecycle.home s) eq_refl home_plain Ht Hn) as [Ht' Hr].
    split; [exact Ht'|]. by rewrite Hr, unmodified_not_saved.
  - apply (served_kept s generated (Lifecycle.callback_stored g "/dashboard") n b true
             _ _ eq_refl eq_refl Ht Hn).
  - rewrite logout_destroys. apply (tidy_destroyed s generated b n Ht).
  - apply (tidy_expired s generated b Ht).
  - set (l := Session.load (Lifecycle.options s) (Lifecycle.redis b) (Lifecycle.cookie b) n).
    destruct (Redis.keycloak_token (Session.data l)) as [g|] eqn:Hg;
      [destruct check as [|g'|]|].
    + destruct (served_kept s generated
                  (Lifecycle.protected_route Lifecycle.Valid status body loginUrl) n b false
                  (Session.data l) (Http.mkResponse status body None [])) as [Ht' Hr];
        [unfold Lifecycle.protected_route; fold l; by rewrite Hg | reflexivity | exact Ht
        | exact Hn |].
      split; [exact Ht'|]. rewrite Hr, unmodified_not_saved.
      apply (loaded_has_record s b n), (grant_means_loaded s b n g Hg).
    + apply (served_kept s generated
               (Lifecycle.protected_route (Lifecycle.Refreshed g') status body loginUrl) n b
               true (Redis.mkSession (Some g')) (Http.mkResponse status body None []));
        [unfold Lifecycle.protected_route; fold l; by rewrite Hg | reflexivity | exact Ht
        | exact Hn].
    + apply (served_kept s generated
               (Lifecycle.protected_route Lifecycle.Invalid status body loginUrl) n b
               true (Session.data l) (Http.redirect [] loginUrl));
        [unfold Lifecycle.protected_route; fold l; by rewrite Hg | reflexivity | exact Ht
        | exact Hn].
    + apply (served_kept s generated
               (Lifecycle.protected_route check status body loginUrl) n b
               true (Session.data l) (Http.redirect [] loginUrl));
        [unfold Lifecycle.protected_route; fold l; rewrite Hg; by destruct check
        | reflexivity | exact Ht | exact Hn].
  - set (l := Session.load (Lifecycle.options s) (Lifecycle.redis b) (Lifecycle.cookie b) n).
    destruct (Redis.keycloak_token (Session.data l)) as [g|] eqn:Hg.
    + destruct (served_kept s generated (Lifecycle.keycloak_logout target) n b true
                  (Redis.mkSession None) (Http.redirect [] target)) as [Ht' Hr];
        [unfold Lifecycle.keycloak_logout; fold l; by rewrite Hg | reflexivity | exact Ht
        | exact Hn |].
      split; [exact Ht'|]. rewrite Hr. cbn. symmetry.
      apply (loaded_has_record s b n), (grant_means_loaded s b n g Hg).
    + destruct (served_kept s generated (Lifecycle.keycloak_logout target) n b false
                  (Session.data l) (Http.redirect [] target)) as [Ht' Hr];
        [unfold Lifecycle.keycloak_logout; fold l; by rewrite Hg | reflexivity | exact Ht
        | exact Hn |].
      split; [exact Ht'|]. by rewrite Hr, unmodified_not_saved.
Qed.

End RedisBacked.

Section InMemory.
Variable s : Lifecycle.Service.
Variable generated : list string.
Hypothesis uninitialized_saved : Session.saveUninitialized (Lifecycle.options s) = true.
Hypothesis home_plain : Http.clearedCookies (Lifecycle.home s) = [].
Hypothesis logout_is_keycloak : exists target,
  Lifecycle.logout s = Lifecycle.keycloak_logout target.

(** Any request whose handler keeps the session leaves a record. *)
Lemma memory_kept (h : Lifecycle.Handler) (n : string) (b : Lifecycle.Browser) (m : bool)
    (d : Redis.SessionData) (resp : Http.Response) :
  let l := Session.load (Lifecycle.options s) (Lifecycle.redis b) (Lifecycle.cookie b) n in
  h l (Lifecycle.redis b) = Lifecycle.mkOutcome (Lifecycle.redis b) (Session.Kept m d) resp ->
  Http.clearedCookies resp = [] ->
  tidy s generated b -> n ∈ generated ->
  tidy s generated (fst (Lifecycle.serve (Lifecycle.options s) h n b))
  ∧ Lifecycle.has_record s (fst (Lifecycle.serve (Lifecycle.options s) h n b)) = true.
Proof.
  cbv zeta. intros Hh Hc Ht Hn.
  destruct (served_kept s generated h n b m d resp Hh Hc Ht Hn) as [Ht' Hr].
  split; [exact Ht'|]. rewrite Hr. unfold Session.should_save.
  rewrite uninitialized_saved.
  destruct (Session.isNew _) eqn:Hnew; [by rewrite orb_true_r|].
  rewrite (loaded_has_record s b n Hnew). apply orb_true_r.
Qed.

Lemma keycloak_logout_kept (target n : string) (b : Lifecycle.Browser) :
  tidy s generated b -> n ∈ generated ->
  tidy s generated
    (fst (Lifecycle.serve (Lifecycle.options s) (Lifecycle.keycloak_logout target) n b))
  ∧ Lifecycle.has_record s
      (fst (Lifecycle.serve (Lifecycle.options s) (Lifecycle.keycloak_logout target) n b))
    = true.
Proof.
  intros Ht Hn.
  set (l := Session.load (Lifecycle.options s) (Lifecycle.redis b) (Lifecycle.cookie b) n).
  destruct (Redis.keycloak_token (Session.data l)) as [g|] eqn:Hg.
  - apply (memory_kept (Lifecycle.keycloak_logout target) n b true (Redis.mkSession None)
             (Http.redirect [] target));
      [unfold Lifecycle.keycloak_logout; fold l; by rewrite Hg | reflexivity | exact Ht
      | exact Hn].
  - apply (memory_kept (Lifecycle.keycloak_logout target) n b false (Session.data l)
             (Http.redirect [] target));
      [unfold Lifecycle.keycloak_logout; fold l; by rewrite Hg | reflexivity | exact Ht
      | exact Hn].
Qed.

Lemma memory_step (b : Lifecycle.Browser) (e : Lifecycle.Event) :
  tidy s generated b ->
  (forall n, n ∈ Lifecycle.event_ids e -> n ∈ generated) ->
  tidy s generated (Lifecycle.step s b e)
  ∧ Lifecycle.has_record s (Lifecycle.step s b e)
    = Lifecycle.kept_in_memory (Lifecycle.has_record s b) e.
Proof.
  intros Ht Hids.
  destruct e as [n|n g|n| |n check status body loginUrl|n target];
    cbn [Lifecycle.step Lifecycle.kept_in_memory];
    try (assert (Hn : n ∈ generated) by (apply Hids; cbn; constructor)).
  - apply (memory_kept (Lifecycle.public_page (Lifecycle.home s)) n b false
             _ (Lifecycle.home s) eq_refl home_plain Ht Hn).
  - apply (memory_kept (Lifecycle.callback_stored g "/dashboard") n b true
             _ _ eq_refl eq_refl Ht Hn).
  - destruct logout_is_keycloak as [target ->]. by apply keycloak_logout_kept.
  - apply (tidy_expired s generated b Ht).
  - set (l := Session.load (Lifecycle.options s) (Lifecycle.redis b) (Lifecycle.cookie b) n).
    destruct (Redis.keycloak_token (Session.data l)) as [g|] eqn:Hg;
      [destruct check as [|g'|]|].
    + apply (memory_kept (Lifecycle.protected_route Lifecycle.Valid status body loginUrl)
               n b false (Session.data l) (Http.mkResponse status body None []));
        [unfold Lifecycle.protected_route; fold l; by rewrite Hg | reflexivity | exact Ht
        | exact Hn].
    + apply (memory_kept
               (Lifecycle.protected_route (Lifecycle.Refreshed g') status body loginUrl)
               n b true (Redis.mkSession (Some g')) (Http.mkResponse status body None []));
        [unfold Lifecycle.protected_route; fold l; by rewrite Hg | reflexivity | exact Ht
        | exact Hn].
    + apply (memory_kept (Lifecycle.protected_route Lifecycle.Invalid status body loginUrl)
               n b true (Session.data l) (Http.redirect [] loginUrl));
        [unfold Lifecycle.protected_route; fold l; by rewrite Hg | reflexivity | exact Ht
        | exact Hn].
    + apply (memory_kept (Lifecycle.protected_route check status body loginUrl)
               n b true (Session.data l) (Http.redirect [] loginUrl));
        [unfold Lifecycle.protected_route; fold l; rewrite Hg; by destruct check
        | reflexivity | exact Ht | exact Hn].
  - by apply keycloak_logout_kept.
Qed.

End InMemory.

(** From one request to a whole sequence. *)
Lemma record_iff_from_step (s : Lifecycle.Service)
    (condition : bool -> Lifecycle.Event -> bool) :
  (forall generated b e,
     tidy s generated b ->
     (forall n, n ∈ Lifecycle.event_ids e -> n ∈ generated) ->
     tidy s generated (Lifecycle.step s b e)
     ∧ Lifecycle.has_record s (Lifecycle.step s b e)
       = condition (Lifecycle.has_record s b) e) ->
  record_iff s condition.
Proof.
  intros Hstep redis0 trace Hfresh.
  assert (Hrun : forall generated tr b,
            tidy s generated b ->
            (forall n, n ∈ Lifecycle.ids tr -> n ∈ generated) ->
            tidy s generated (Lifecycle.run s b tr)
            ∧ Lifecycle.has_record s (Lifecycle.run s b tr)
              = fold_left condition tr (Lifecycle.has_record s b)).
  { intros generated tr. induction tr as [|e tr IH]; intros b Ht Hin; [by split|].
    cbn [Lifecycle.run fold_left]. fold (Lifecycle.run s (Lifecycle.step s b e) tr).
    destruct (Hstep generated b e Ht) as [Ht' Hr].
    { intros n Hn. apply Hin. unfold Lifecycle.ids. cbn [flat_map].
      apply elem_of_app. by left. }
    rewrite <- Hr. apply IH; [exact Ht'|].
    intros n Hn. apply Hin. unfold Lifecycle.ids. cbn [flat_map].
    apply elem_of_app. by right. }
  destruct (Hrun (Lifecycle.ids trace) trace (Lifecycle.mkBrowser redis0 None))
    as [Ht Hr]; [|auto|].
  - split; [|discriminate]. cbn [Lifecycle.redis Lifecycle.cookie].
    intros id Hid Hsome. rewrite (Hfresh id Hid) in Hsome. by destruct Hsome.
  - by rewrite (holds_is_has s _ _ Ht), Hr.
Qed.

(** C8, as stated, fails on the Redis-backed services too: a browser that
    asks for a protected route before it ever logged in is sent to the
    provider, and the session that remembers where to come back to is saved,
    so a record exists before any code exchange. *)
Lemma record_before_exchange :
  ¬ record_iff (Lifecycle.admin_portal default_config) Lifecycle.entitled.
Proof.
  intros H.
  specialize (H ∅ [Lifecycle.Protected "s1" Lifecycle.Invalid 200 Http.NoBody "login"]
                (fun id _ => lookup_empty _)).
  vm_compute in H. discriminate H.
Qed.

(** The in-memory services store a record on any first request
    ([saveUninitialized: true]), a visit to the public page included. *)
Remark legacy_record_before_exchange :
  ¬ record_iff Lifecycle.legacy_admin_portal Lifecycle.entitled.
Proof.
  intros H. specialize (H ∅ [Lifecycle.Visit "s1"] (fun id _ => lookup_empty _)).
  vm_compute in H. discriminate H.
Qed.

(** C8, amended. Over every sequence of requests of a browser (the public
    page, routes behind [keycloak.protect], callbacks with a successful
    code exchange, the service's logout, [/logout]) and store expiries,
    whatever the store held before under other identifiers: in the
    Redis-backed services a record of the browser exists exactly when,
    since its last [/auth/logout] and the last expiry of its record, it
    completed a code exchange or asked for a protected route; none remains
    after [/auth/logout], under any identifier generated for the browser.
    In the in-memory services a record exists exactly when the browser made
    a request since the record last expired. *)
Theorem record_iff_requests (cfg : Config) :
  record_iff (Lifecycle.admin_portal cfg) Lifecycle.kept_by_redis
  ∧ record_iff (Lifecycle.cs_portal cfg) Lifecycle.kept_by_redis
  ∧ record_iff Lifecycle.legacy_admin_portal Lifecycle.kept_in_memory
  ∧ record_iff Lifecycle.legacy_cs_portal Lifecycle.kept_in_memory.
Proof.
  split; [|split; [|split]]; apply record_iff_from_step; intros generated b e.
  - apply redis_step; try reflexivity.
    intros n b'. cbn [Lifecycle.options Lifecycle.logout Lifecycle.admin_portal].
    by rewrite serve_admin_logout.
  - apply redis_step; try reflexivity.
    intros n b'. cbn [Lifecycle.options Lifecycle.logout Lifecycle.cs_portal].
    by rewrite serve_cs_logout.
  - apply memory_step; try reflexivity. by eexists.
  - apply memory_step; try reflexivity. by eexists.
Qed.

Lemma record_iff_requests_witness :
  let trace := [Lifecycle.Protected "s1" Lifecycle.Invalid 200 Http.NoBody "login";
                Lifecycle.Exchange "s2" "grant";
                Lifecycle.Logout "s3"] in
  Lifecycle.holds_record (Lifecycle.admin_portal default_config) (Lifecycle.ids trace)
    (Lifecycle.run (Lifecycle.admin_portal default_config) (Lifecycle.mkBrowser ∅ None) trace)
  = false.
Proof.
  cbv zeta.
  exact (proj1 (record_iff_requests default_config) ∅
           [Lifecycle.Protected "s1" Lifecycle.Invalid 200 Http.NoBody "login";
            Lifecycle.Exchange "s2" "grant";
            Lifecycle.Logout "s3"]
           (fun id _ => lookup_empty _)).
Defined.

(** ** The authorization gate *)

Lemma has_realm_role_role_set (t : Kc.Token) (r : string) :
  Kc.hasRealmRole t r = bool_decide (r ∈ Kc.role_set t).
Proof.
  unfold Kc.hasRealmRole, Kc.role_set.
  destruct (Kc.realm_roles (Kc.content t)) as [roles|]; cbn [default].
  - apply eq_true_iff_eq. rewrite bool_decide_eq_true, elem_of_list_to_set.
    rewrite existsb_exists, list_elem_of_In. split.
    + intros (x & Hin & Heq). apply String.eqb_eq in Heq. by subst.
    + intros Hin. exists r. split; [done | apply String.eqb_refl].
  - symmetry. apply bool_decide_eq_false_2. set_solver.
Qed.

(** The guards the routes pass to [keycloak.protect] are role predicates. *)
Lemma realm_admin_is_role_predicate (t : Kc.Token) (request : Incoming) :
  Gate.source_guard (ByRole "realm:admin") t request
  = Gate.eval (Gate.RequireRole "admin") (Kc.role_set t).
Proof. cbn. apply has_realm_role_role_set. Qed.

Lemma cs_or_admin_is_role_predicate (t : Kc.Token) (request : Incoming) :
  Gate.source_guard (ByGuard CsPortal.cs_or_admin) t request
  = Gate.eval (Gate.RequireAny ["cs"; "admin"]) (Kc.role_set t).
Proof.
  cbn. unfold CsPortal.cs_or_admin. rewrite !has_realm_role_role_set.
  by rewrite orb_false_r.
Qed.

(** Whichever way verified claims arrive, the gate applies step 6 to them
    and leaves the state alone. *)
Lemma authorize_authenticated (s : Gate.Service) (idp : Gate.Provider) (env : Gate.Env)
    (p : Gate.RolePredicate) (request : Incoming) (st : Gate.State) (c : Kc.Token) :
  authenticated s idp env st request c ->
  Gate.decision (Gate.authorize s idp env p request st) = Gate.decide p c
  ∧ Gate.state (Gate.authorize s idp env p request st) = st
  ∧ Gate.setCookie (Gate.authorize s idp env p request st) = None.
Proof.
  intros [tok Hb Hv | sid r Hb Hq Hc Hg Hexp Hv]; unfold Gate.authorize; rewrite Hb.
  - by rewrite Hv.
  - rewrite Hq. unfold Gate.by_session. rewrite Hc, Hg.
    destruct (Z.leb_spec (Gate.accessTokenExpiry (Gate.tokenSet r)) (Gate.now env)); [lia|].
    unfold Gate.with_claims. by rewrite Hv.
Qed.

Lemma decide_allow_iff (p : Gate.RolePredicate) (c : Kc.Token) :
  Gate.decide p c = Gate.Allow c ↔ Gate.eval p (Kc.role_set c) = true.
Proof.
  unfold Gate.decide. destruct (Gate.eval p (Kc.role_set c)); split; intros H; congruence.
Qed.

(** C1. For every role predicate P and verified claims C: the gate allows
    exactly when P holds of C's role set; two requests that both carry C,
    one by bearer header and one by session cookie, get the same decision;
    and whether a request is allowed depends on the role set and P alone,
    not on the service, the provider, the time, the store or anything else
    in the request. The guards the routes hand to [keycloak.protect]
    (['realm:admin'], and [hasRealmRole('cs') || hasRealmRole('admin')])
    are such role predicates. *)
Theorem authorize_path_equivalence (s : Gate.Service) (idp : Gate.Provider)
    (env : Gate.Env) (p : Gate.RolePredicate) (st : Gate.State)
    (viaBearer viaCookie : Incoming) (c : Kc.Token) :
  authenticated s idp env st viaBearer c ->
  authenticated s idp env st viaCookie c ->
  let d := Gate.decision (Gate.authorize s idp env p viaBearer st) in
  d = Gate.decision (Gate.authorize s idp env p viaCookie st)
  ∧ (d = Gate.Allow c ↔ Gate.eval p (Kc.role_set c) = true)
  ∧ Gate.is_allow d = Gate.eval p (Kc.role_set c)
  ∧ (forall s' idp' env' st' request' c',
       authenticated s' idp' env' st' request' c' ->
       Kc.role_set c' = Kc.role_set c ->
       Gate.is_allow (Gate.decision (Gate.authorize s' idp' env' p request' st'))
       = Gate.is_allow d)
  ∧ (forall t request,
       Gate.source_guard AdminPortal.api_profits_protect t request
       = Gate.eval (Gate.RequireRole "admin") (Kc.role_set t))
  ∧ (forall t request,
       Gate.source_guard CsPortal.dashboard_protect t request
       = Gate.eval (Gate.RequireAny ["cs"; "admin"]) (Kc.role_set t)
       ∧ Gate.source_guard CsPortal.api_customers_protect t request
         = Gate.eval (Gate.RequireAny ["cs"; "admin"]) (Kc.role_set t)).
Proof.
  intros HB HC. cbv zeta.
  destruct (authorize_authenticated s idp env p viaBearer st c HB) as (-> & _ & _).
  destruct (authorize_authenticated s idp env p viaCookie st c HC) as (-> & _ & _).
  split; [reflexivity|]. split; [apply decide_allow_iff|].
  assert (Hallow : forall c0, Gate.is_allow (Gate.decide p c0) = Gate.eval p (Kc.role_set c0)).
  { intros c0. unfold Gate.decide. by destruct (Gate.eval p (Kc.role_set c0)). }
  split; [apply Hallow|]. split.
  - intros s' idp' env' st' request' c' H' Hroles.
    destruct (authorize_authenticated s' idp' env' p request' st' c' H') as (-> & _ & _).
    by rewrite !Hallow, Hroles.
  - split.
    + intros t request. apply realm_admin_is_role_predicate.
    + intros t request. split; apply cs_or_admin_is_role_predicate.
Qed.

Lemma authorize_path_equivalence_witness :
  let viaBearer := bearer_get "jwt-admin" in
  let viaCookie := browser_get (Some "sid-admin") None None in
  let st := Gate.mkState admin_sessions None in
  let p := Gate.RequireRole "admin" in
  Gate.decision (Gate.authorize admin_gate demo_idp demo_env p viaBearer st)
  = Gate.decision (Gate.authorize admin_gate demo_idp demo_env p viaCookie st)
  ∧ Gate.decision (Gate.authorize admin_gate demo_idp demo_env p viaBearer st)
    = Gate.Allow admin_user.
Proof.
  cbv zeta.
  destruct (authorize_path_equivalence admin_gate demo_idp demo_env
              (Gate.RequireRole "admin") (Gate.mkState admin_sessions None)
              (bearer_get "jwt-admin") (browser_get (Some "sid-admin") None None)
              admin_user
              (by_bearer admin_gate demo_idp demo_env (Gate.mkState admin_sessions None)
                 (bearer_get "jwt-admin") admin_user "jwt-admin" eq_refl eq_refl)
              (by_cookie admin_gate demo_idp demo_env (Gate.mkState admin_sessions None)
                 (browser_get (Some "sid-admin") None None) admin_user
                 "sid-admin" (Gate.mkRecord admin_tokens 0 0)
                 eq_refl eq_refl eq_refl eq_refl eq_refl eq_refl))
    as (Hsame & Hiff & _).
  split; [exact Hsame | apply Hiff; reflexivity].
Defined.

(** C3. An authenticated request, by cookie or by bearer, whose verified
    role set fails the route's predicate is answered 403: the decision is
    no redirect to the provider, no pending authorization is opened and no
    cookie is set, so nothing can loop; and an unauthenticated outcome is
    never a 403 (it is a redirect or a 401), so the two stay distinct. *)
Theorem forbidden_is_not_redirect (s : Gate.Service) (idp : Gate.Provider)
    (env : Gate.Env) (p : Gate.RolePredicate) (request : Incoming) (st : Gate.State)
    (c : Kc.Token) :
  authenticated s idp env st request c ->
  Gate.eval p (Kc.role_set c) = false ->
  let res := Gate.authorize s idp env p request st in
  Gate.decision res = Gate.Deny 403
  ∧ Gate.is_redirect (Gate.decision res) = false
  ∧ Gate.state res = st
  ∧ Gate.setCookie res = None
  ∧ (forall st' made,
       Gate.decision (Gate.unauthenticated s idp env request st' made) ≠ Gate.Deny 403).
Proof.
  intros Hauth Hp. cbv zeta.
  destruct (authorize_authenticated s idp env p request st c Hauth) as (Hd & Hs & Hc).
  rewrite Hd, Hs, Hc. unfold Gate.decide. rewrite Hp.
  repeat split.
  intros st' made. unfold Gate.unauthenticated.
  destruct (interactive request); cbn; discriminate.
Qed.

Lemma forbidden_is_not_redirect_witness :
  Gate.source_guard AdminPortal.dashboard_protect cs_user
    (browser_get (Some "sid-cs") None None) = false
  ∧ Gate.decision
      (Gate.authorize admin_gate demo_idp demo_env (Gate.RequireRole "admin")
         (browser_get (Some "sid-cs") None None) (Gate.mkState demo_sessions None))
    = Gate.Deny 403.
Proof.
  split; [reflexivity|].
  exact (proj1 (forbidden_is_not_redirect admin_gate demo_idp demo_env
                  (Gate.RequireRole "admin") (browser_get (Some "sid-cs") None None)
                  (Gate.mkState demo_sessions None) cs_user
                  (by_cookie admin_gate demo_idp demo_env (Gate.mkState demo_sessions None)
                     (browser_get (Some "sid-cs") None None) cs_user
                     "sid-cs" (Gate.mkRecord cs_tokens 0 0)
                     eq_refl eq_refl eq_refl eq_refl eq_refl eq_refl)
                  eq_refl)).
Defined.

(** C6. A request whose session holds an expired access token and a
    refresh token: the gate asks the provider to refresh. When the refresh
    succeeds the stored record holds the new token set in place of the old
    one, the new access token is the one verified, and the role predicate
    is applied to the new claims (so the request is allowed when it holds
    of them). When the refresh fails the request is unauthenticated, a
    redirect for a browser navigation and 401 otherwise, and never 403. *)
Theorem expired_token_refreshes (s : Gate.Service) (idp : Gate.Provider) (env : Gate.Env)
    (p : Gate.RolePredicate) (request : Incoming) (st : Gate.State)
    (sessionId : string) (r : Gate.SessionRecord) (rt : string) :
  bearer request = None ->
  query_code request = None ->
  cookie_sid request = Some sessionId ->
  Gate.get s sessionId (Gate.sessions st) = Some r ->
  Gate.accessTokenExpiry (Gate.tokenSet r) <= Gate.now env ->
  Gate.refreshToken (Gate.tokenSet r) = Some rt ->
  let res := Gate.authorize s idp env p request st in
  In (Gate.CallRefresh rt) (Gate.calls res)
  ∧ (forall ts' c',
       Gate.refresh idp rt = Some ts' ->
       Gate.verify idp (Gate.accessToken ts') (Gate.now env) = inr c' ->
       Gate.decision res = Gate.decide p c'
       ∧ (Gate.eval p (Kc.role_set c') = true -> Gate.decision res = Gate.Allow c')
       ∧ Gate.tokenSet <$> Gate.get s sessionId (Gate.sessions (Gate.state res)) = Some ts'
       ∧ Gate.calls res = [Gate.CallRefresh rt; Gate.CallVerify (Gate.accessToken ts')])
  ∧ (Gate.refresh idp rt = None ->
       Gate.decision res = Gate.decision (Gate.unauthenticated s idp env request st [])
       ∧ Gate.decision res ≠ Gate.Deny 403
       ∧ Gate.is_allow (Gate.decision res) = false
       ∧ Gate.sessions (Gate.state res) = Gate.sessions st).
Proof.
  intros Hb Hq Hc Hg Hexp Hrt. cbv zeta.
  unfold Gate.authorize. rewrite Hb, Hq. unfold Gate.by_session. rewrite Hc, Hg, Hrt.
  destruct (Z.leb_spec (Gate.accessTokenExpiry (Gate.tokenSet r)) (Gate.now env)) as [_|?];
    [|lia].
  destruct (Gate.refresh idp rt) as [ts|] eqn:Hrefresh.
  - split; [|split].
    + unfold Gate.with_claims, Gate.unauthenticated.
      destruct (Gate.verify idp _ _); [destruct (interactive request)|]; cbn; auto.
    + intros ts' c' [= <-] Hv. unfold Gate.with_claims. rewrite Hv.
      cbn [Gate.decision Gate.state Gate.calls Gate.sessions].
      split; [reflexivity|]. split; [apply decide_allow_iff|]. split; [|reflexivity].
      unfold Gate.get, Gate.update. rewrite lookup_alter_eq.
      unfold Gate.get in Hg. by rewrite Hg.
    + discriminate.
  - split; [|split].
    + unfold Gate.unauthenticated. destruct (interactive request); cbn; auto.
    + discriminate.
    + intros _. unfold Gate.unauthenticated.
      destruct (interactive request); cbn; repeat split; discriminate.
Qed.

Lemma expired_token_refreshes_witness :
  let request := browser_get (Some "sid-stale") None None in
  let res := Gate.authorize admin_gate demo_idp demo_env (Gate.RequireRole "admin")
               request (Gate.mkState demo_sessions None) in
  Gate.decision res = Gate.Allow admin_user
  ∧ Gate.tokenSet <$> Gate.get admin_gate "sid-stale" (Gate.sessions (Gate.state res))
    = Some admin_tokens.
Proof.
  cbv zeta.
  destruct (expired_token_refreshes admin_gate demo_idp demo_env (Gate.RequireRole "admin")
              (browser_get (Some "sid-stale") None None) (Gate.mkState demo_sessions None)
              "sid-stale" (Gate.mkRecord stale_tokens 0 0) "refresh-admin"
              eq_refl eq_refl eq_refl eq_refl ltac:(cbn; lia) eq_refl)
    as (_ & Hok & _).
  destruct (Hok admin_tokens admin_user eq_refl eq_refl) as (_ & Hallow & Hstored & _).
  split; [apply Hallow; reflexivity | exact Hstored].
Defined.








(** * Further properties of the code *)

(** ** [encodeURIComponent] *)

Lemma encode_app (a b : string) :
  Uri.encodeURIComponent (a +:+ b) = Uri.encodeURIComponent a +:+ Uri.encodeURIComponent b.
Proof.
  induction a as [|c a IH]; [reflexivity|].
  simpl. rewrite IH.
  destruct (Uri.unreserved c); reflexivity.
Qed.

Lemma unescape_escape (c : ascii) (rest : string) :
  unescape (Uri.escape c +:+ rest) = c.
Proof. destruct c as [[] [] [] [] [] [] [] []]; reflexivity. Qed.

Lemma escape_hex (c : ascii) (rest : string) :
  well_escaped (Uri.escape c +:+ rest) = well_escaped rest.
Proof. destruct c as [[] [] [] [] [] [] [] []]; reflexivity. Qed.

Lemma percent_is_reserved (c : ascii) :
  Uri.unreserved c = true -> Ascii.eqb c "%"%char = false.
Proof.
  intros Hu. destruct (Ascii.eqb_spec c "%"%char) as [->|]; [|reflexivity].
  discriminate Hu.
Qed.

Lemma encode_inv (s1 s2 : string) :
  Uri.encodeURIComponent s1 = Uri.encodeURIComponent s2 -> s1 = s2.
Proof.
  revert s2. induction s1 as [|c1 r1 IH]; intros [|c2 r2] H.
  - reflexivity.
  - cbn [Uri.encodeURIComponent] in H.
    destruct (Uri.unreserved c2); discriminate H.
  - cbn [Uri.encodeURIComponent] in H.
    destruct (Uri.unreserved c1); discriminate H.
  - cbn [Uri.encodeURIComponent] in H.
    destruct (Uri.unreserved c1) eqn:Hu1, (Uri.unreserved c2) eqn:Hu2.
    + injection H as -> H. f_equal. by apply IH.
    + injection H as -> _. discriminate Hu1.
    + injection H as <- _. discriminate Hu2.
    + assert (c1 = c2) as ->.
      { rewrite <- (unescape_escape c1 (Uri.encodeURIComponent r1)), H.
        apply unescape_escape. }
      f_equal. apply IH. unfold Uri.escape in H. by injection H.
Qed.

Lemma length_cons_app (c : ascii) (a b : string) :
  String.length (String c a +:+ b) = S (String.length (a +:+ b)).
Proof. reflexivity. Qed.

Lemma length_nil_app (b : string) : String.length ("" +:+ b) = String.length b.
Proof. reflexivity. Qed.

Lemma encode_length (s : string) :
  (String.length s <= String.length (Uri.encodeURIComponent s) <= 3 * String.length s)%nat.
Proof.
  induction s as [|c r IH]; [cbn; lia|].
  cbn [Uri.encodeURIComponent]. unfold Uri.escape.
  destruct (Uri.unreserved c); rewrite !length_cons_app, length_nil_app; simpl; lia.
Qed.

Lemma app_cons (c : ascii) (a b : string) : String c a +:+ b = String c (a +:+ b).
Proof. reflexivity. Qed.

Lemma app_nil_l (b : string) : "" +:+ b = b.
Proof. reflexivity. Qed.

Lemma escape_url_safe (c : ascii) (rest : string) :
  all_url_safe (Uri.escape c +:+ rest) = all_url_safe rest.
Proof. destruct c as [[] [] [] [] [] [] [] []]; reflexivity. Qed.

Lemma encode_escaped (s : string) : well_escaped (Uri.encodeURIComponent s) = true.
Proof.
  induction s as [|c r IH]; [reflexivity|].
  cbn [Uri.encodeURIComponent]. destruct (Uri.unreserved c) eqn:Hu.
  - rewrite app_cons, app_nil_l. cbn [well_escaped].
    by rewrite (percent_is_reserved c Hu), Hu, IH.
  - by rewrite escape_hex.
Qed.

Lemma encode_url_safe (s : string) : all_url_safe (Uri.encodeURIComponent s) = true.
Proof.
  induction s as [|c r IH]; [reflexivity|].
  cbn [Uri.encodeURIComponent]. destruct (Uri.unreserved c) eqn:Hu.
  - rewrite app_cons, app_nil_l. cbn [all_url_safe]. unfold url_safe.
    by rewrite Hu, IH.
  - by rewrite escape_url_safe.
Qed.

(** The output of [encodeURIComponent] is made of unreserved characters
    and percent escapes of two uppercase hexadecimal digits, whatever the
    input: none of its characters can act as a delimiter, and an input
    character that is not unreserved never appears in it as it is. *)
Theorem encode_well_escaped (s : string) :
  well_escaped (Uri.encodeURIComponent s) = true
  ∧ all_url_safe (Uri.encodeURIComponent s) = true
  ∧ (forall c rest, Uri.unreserved c = false ->
       Uri.encodeURIComponent (String c rest)
       = String "%" (String (Uri.hexdigit (nat_of_ascii c / 16))
           (String (Uri.hexdigit (nat_of_ascii c mod 16)) (Uri.encodeURIComponent rest)))).
Proof.
  split; [apply encode_escaped|]. split; [apply encode_url_safe|].
  intros c rest Hu. cbn [Uri.encodeURIComponent]. by rewrite Hu.
Qed.

(** [encodeURIComponent] distributes over concatenation (so a template
    string can be encoded piecewise) and is injective: two inputs have the
    same encoding only when they are equal. *)
Theorem encode_injective (s1 s2 : string) :
  Uri.encodeURIComponent (s1 +:+ s2)
  = Uri.encodeURIComponent s1 +:+ Uri.encodeURIComponent s2
  ∧ (Uri.encodeURIComponent s1 = Uri.encodeURIComponent s2 ↔ s1 = s2).
Proof.
  split; [apply encode_app|]. split; [apply encode_inv | by intros ->].
Qed.

(** The encoding has at least one and at most three characters for each
    UTF-8 byte of the input (so up to nine for one UTF-16 unit and twelve
    for a surrogate pair), and it leaves a string unchanged exactly when
    every character of it is unreserved. *)
Theorem encode_identity_iff (s : string) :
  (utf8_length s <= String.length (Uri.encodeURIComponent s) <= 3 * utf8_length s)%nat
  ∧ (Uri.encodeURIComponent s = s ↔ all_unreserved s = true).
Proof.
  split; [apply encode_length|].
  induction s as [|c r IH]; [by split|].
  cbn [Uri.encodeURIComponent all_unreserved].
  destruct (Uri.unreserved c) eqn:Hu; rewrite ?app_cons, ?app_nil_l; cbn [andb].
  - rewrite <- IH. split; [by intros [= ?] | by intros ->].
  - split; [|discriminate]. intros H. apply (f_equal String.length) in H.
    unfold Uri.escape in H. rewrite !length_cons_app, length_nil_app in H.
    pose proof (encode_length r) as [Hle _]. simpl in H. lia.
Qed.

(** ** The logout URLs *)

Lemma app_slash_inv (a b : string) : a +:+ "/" = b +:+ "/" -> a = b.
Proof.
  revert b. induction a as [|c a IH]; intros [|d b] H.
  - reflexivity.
  - rewrite app_nil_l, app_cons in H. injection H as _ H. by destruct b.
  - rewrite app_nil_l, app_cons in H. injection H as _ H. by destruct a.
  - rewrite !app_cons in H. injection H as -> H. f_equal. by apply IH.
Qed.

(** Both logout URLs are the Keycloak base URL, the end-session path and a
    well-escaped [redirect_uri] value that ends in the escape of the slash
    the handler appends; and the two services send the browser back to the
    same place exactly when they are configured with the same portal URL. *)
Theorem logout_urls_return_home (cfg : Config) :
  AdminPortal.logoutUrl cfg
  = KEYCLOAK_URL cfg +:+ "/realms/demo/protocol/openid-connect/logout?redirect_uri="
      +:+ Uri.encodeURIComponent (ADMIN_PORTAL_URL cfg) +:+ "%2F"
  ∧ CsPortal.logoutUrl cfg
    = KEYCLOAK_URL cfg +:+ "/realms/demo/protocol/openid-connect/logout?redirect_uri="
        +:+ Uri.encodeURIComponent (CS_PORTAL_URL cfg) +:+ "%2F"
  ∧ well_escaped (Uri.encodeURIComponent (ADMIN_PORTAL_URL cfg) +:+ "%2F") = true
  ∧ well_escaped (Uri.encodeURIComponent (CS_PORTAL_URL cfg) +:+ "%2F") = true
  ∧ (AdminPortal.logoutUrl cfg = CsPortal.logoutUrl cfg
     ↔ ADMIN_PORTAL_URL cfg = CS_PORTAL_URL cfg).
Proof.
  assert (Hw : forall u, well_escaped (Uri.encodeURIComponent u +:+ "%2F") = true).
  { intros u. change "%2F" with (Uri.encodeURIComponent "/").
    rewrite <- encode_app. apply encode_escaped. }
  unfold AdminPortal.logoutUrl, CsPortal.logoutUrl. rewrite !encode_app.
  split; [reflexivity|]. split; [reflexivity|]. split; [apply Hw|]. split; [apply Hw|].
  split.
  - intros H. do 2 apply String.app_inj in H. rewrite <- !encode_app in H.
    by apply app_slash_inv, encode_inv.
  - by intros ->.
Qed.

(** ** The proxies *)

(** Admin Portal's [/api/customers] proxy does not look at the sibling's
    status: whenever the sibling's body parses as JSON the proxy passes it
    on with status 200, whatever status it came with (a 403 or a 500
    included). *)
Theorem admin_proxy_passes_any_json (cfg : Config)
    (fetch : Http.Outbound -> Http.FetchResult) (g : Kc.Grant)
    (b : Http.UpstreamResponse) (j : Js.Json) :
  fetch (Http.mkOutbound (CS_PORTAL_URL cfg +:+ "/api/customers")
           ("Bearer " +:+ Kc.token (Kc.access_token g))) = Http.Resolved b ->
  Http.up_body b = Http.Parses j ->
  AdminPortal.api_customers cfg fetch g = Http.json j
  ∧ Http.status (AdminPortal.api_customers cfg fetch g) = 200.
Proof.
  intros Hf Hb. unfold AdminPortal.api_customers. rewrite Hf, Hb. split; reflexivity.
Qed.

Lemma admin_proxy_passes_any_json_witness :
  Http.status
    (AdminPortal.api_customers default_config
       (fun _ => Http.Resolved (Http.mkUpstream 403 (Http.Parses CsPortal.access_denied)))
       (grant_of admin_user)) = 200.
Proof.
  exact (proj2 (admin_proxy_passes_any_json default_config
                  (fun _ => Http.Resolved (Http.mkUpstream 403 (Http.Parses CsPortal.access_denied)))
                  (grant_of admin_user)
                  (Http.mkUpstream 403 (Http.Parses CsPortal.access_denied))
                  CsPortal.access_denied eq_refl eq_refl)).
Defined.

Lemma not_ok_not_200 (b : Http.UpstreamResponse) :
  Http.ok b = false -> Http.up_status b ≠ 200.
Proof. unfold Http.ok. intros H Heq. rewrite Heq in H. discriminate H. Qed.

(** CS Portal's [/api/profits] proxy answers 200 exactly when the call to
    Admin Portal resolved with a 2xx status and a body that parses as JSON,
    and then its answer is that body under status 200 (a 201 or 204 of the
    sibling becomes a 200). *)
Theorem cs_proxy_ok_iff (cfg : Config) (fetch : Http.Outbound -> Http.FetchResult)
    (g : Kc.Grant) :
  let out := Http.mkOutbound (ADMIN_PORTAL_URL cfg +:+ "/api/profits")
               ("Bearer " +:+ Kc.token (Kc.access_token g)) in
  let a := CsPortal.api_profits cfg fetch g in
  (Http.status a = 200
   ↔ exists b j, fetch out = Http.Resolved b ∧ Http.ok b = true
                 ∧ Http.up_body b = Http.Parses j)
  ∧ (forall b j, fetch out = Http.Resolved b -> Http.ok b = true ->
       Http.up_body b = Http.Parses j -> a = Http.json j).
Proof.
  cbv zeta. unfold CsPortal.api_profits. cbv zeta. split.
  - destruct (fetch _) as [msg|b] eqn:Hf.
    + split; [discriminate|]. intros (b & j & H & _). discriminate H.
    + destruct (Http.ok b) eqn:Hok; cbn [negb].
      * destruct (Http.up_body b) as [j|raw msg] eqn:Hb.
        -- split; [|reflexivity]. intros _. by exists b, j.
        -- split; [discriminate|]. intros (b' & j & [= <-] & _ & H). congruence.
      * split.
        -- intros H. cbn in H. by destruct (not_ok_not_200 b Hok).
        -- intros (b' & j & [= <-] & H & _). congruence.
  - intros b j -> Hok Hb. by rewrite Hok, Hb.
Qed.

(** Both proxies are transparent when the sibling's route answers: CS
    Portal's [/api/profits] gives exactly what Admin Portal's handler
    answered, and Admin Portal's [/api/customers] exactly what CS Portal's
    handler answered, so [requestedBy] is the user name the sibling read
    from the forwarded token. *)
Theorem proxies_transparent (cfg : Config) (caller sibling : Kc.Grant) :
  CsPortal.api_profits cfg (fun _ => Http.Resolved (served (AdminPortal.api_profits sibling)))
    caller
  = AdminPortal.api_profits sibling
  ∧ AdminPortal.api_customers cfg
      (fun _ => Http.Resolved (served (CsPortal.api_customers sibling))) caller
    = CsPortal.api_customers sibling
  ∧ field "requestedBy"
      (CsPortal.api_profits cfg
         (fun _ => Http.Resolved (served (AdminPortal.api_profits sibling))) caller)
    = Js.JStr <$> Kc.preferred_username (Kc.content (Kc.access_token sibling)).
Proof.
  assert (H1 : CsPortal.api_profits cfg
                 (fun _ => Http.Resolved (served (AdminPortal.api_profits sibling))) caller
               = AdminPortal.api_profits sibling) by reflexivity.
  split; [exact H1|]. split; [reflexivity|]. rewrite H1.
  unfold AdminPortal.api_profits, field, json_of.
  by destruct (Kc.preferred_username _).
Qed.

(** Both proxies always answer with a JSON document and never with a
    redirect or a cleared cookie; apart from the sibling's own non-2xx
    status, which only CS Portal passes on, the status is 200 or 500. *)
Theorem proxies_answer_json (cfg : Config) (fetch : Http.Outbound -> Http.FetchResult)
    (g : Kc.Grant) :
  let a := AdminPortal.api_customers cfg fetch g in
  let c := CsPortal.api_profits cfg fetch g in
  (exists j, Http.body a = Http.JsonBody j) ∧ (exists j, Http.body c = Http.JsonBody j)
  ∧ Http.location a = None ∧ Http.location c = None
  ∧ Http.clearedCookies a = [] ∧ Http.clearedCookies c = []
  ∧ (Http.status a = 200 ∨ Http.status a = 500)
  ∧ (Http.status c = 200 ∨ Http.status c = 500
     ∨ exists b, fetch (Http.mkOutbound (ADMIN_PORTAL_URL cfg +:+ "/api/profits")
                          ("Bearer " +:+ Kc.token (Kc.access_token g))) = Http.Resolved b
                 ∧ Http.ok b = false ∧ Http.status c = Http.up_status b).
Proof.
  cbv zeta. unfold AdminPortal.api_customers, CsPortal.api_profits. cbv zeta.
  destruct (fetch (Http.mkOutbound (CS_PORTAL_URL cfg +:+ "/api/customers") _))
    as [m1|b1]; [|destruct (Http.up_body b1)];
  (destruct (fetch (Http.mkOutbound (ADMIN_PORTAL_URL cfg +:+ "/api/profits") _))
    as [m2|b2] eqn:Hf2;
   [|destruct (Http.ok b2) eqn:Hok; [destruct (Http.up_body b2)|]]);
  cbn; repeat split; eauto 8.
Qed.

(** ** The guards of the two services *)

(** Whoever passes Admin Portal's guard (['realm:admin']) passes CS
    Portal's guard as well, on any request; the converse fails for a token
    whose only role is [cs]; CS Portal's guard does not read the request;
    and a token without [realm_access] passes neither. *)
Theorem admin_access_implies_cs_access (t : Kc.Token) (request request' : Incoming) :
  (Kc.hasRole t "realm:admin" = true -> CsPortal.cs_or_admin t request = true)
  ∧ CsPortal.cs_or_admin t request = CsPortal.cs_or_admin t request'
  ∧ (Kc.realm_roles (Kc.content t) = None ->
       Kc.hasRole t "realm:admin" = false ∧ CsPortal.cs_or_admin t request = false)
  ∧ (exists u, CsPortal.cs_or_admin u request = true ∧ Kc.hasRole u "realm:admin" = false).
Proof.
  split; [|split; [|split]].
  - intros H. change (Kc.hasRealmRole t "admin" = true) in H.
    unfold CsPortal.cs_or_admin. rewrite H. apply orb_true_r.
  - reflexivity.
  - intros Hnone. change (Kc.hasRole t "realm:admin") with (Kc.hasRealmRole t "admin").
    unfold CsPortal.cs_or_admin, Kc.hasRealmRole. rewrite Hnone. by split.
  - exists cs_user. split; reflexivity.
Qed.

(** ** What a logout does to the store *)

Lemma session_key_inj (o : Session.Options) (sid sid' : string) :
  Session.key o sid = Session.key o sid' -> sid = sid'.
Proof. unfold Session.key. apply String.app_inj. Qed.

Lemma admin_logout_store_faults (cfg : Config) (f : Redis.Faults) (sid : string)
    (redis : Redis.Store) :
  logout_store (AdminPortal.auth_logout cfg f sid redis)
  = match Redis.destroy_error f, Redis.del_error f with
    | Some _, Some _ => redis
    | _, _ => delete (Session.key AdminPortal.session_options sid) redis
    end.
Proof.
  unfold AdminPortal.auth_logout, Redis.session_destroy, Redis.del, logout_store.
  destruct (Redis.destroy_error f), (Redis.del_error f); cbn; try reflexivity.
  apply delete_twice.
Qed.

Lemma cs_logout_store_faults (cfg : Config) (f : Redis.Faults) (sid : string)
    (redis : Redis.Store) :
  logout_store (CsPortal.auth_logout cfg f sid redis)
  = match Redis.destroy_error f, Redis.del_error f with
    | Some _, Some _ => redis
    | _, _ => delete (Session.key CsPortal.session_options sid) redis
    end.
Proof.
  unfold CsPortal.auth_logout, Redis.session_destroy, Redis.del, logout_store.
  destruct (Redis.destroy_error f), (Redis.del_error f); cbn; try reflexivity.
  apply delete_twice.
Qed.

(** [/auth/logout] removes the session twice over, through
    [req.session.destroy] and through the explicit [redisClient.del] of the
    same key: the record is gone as soon as one of the two succeeds, and
    the store is left exactly as it was only when both fail. *)
Theorem logout_removes_if_either_succeeds (cfg : Config) (f : Redis.Faults)
    (sid : string) (redis : Redis.Store) :
  let admin := logout_store (AdminPortal.auth_logout cfg f sid redis) in
  let cs := logout_store (CsPortal.auth_logout cfg f sid redis) in
  let both_fail :=
    match Redis.destroy_error f, Redis.del_error f with
    | Some _, Some _ => true
    | _, _ => false
    end in
  (if both_fail then admin = redis ∧ cs = redis
   else admin !! Session.key AdminPortal.session_options sid = None
        ∧ cs !! Session.key CsPortal.session_options sid = None)
  ∧ "admin-portal:sess:" +:+ sid = Session.key AdminPortal.session_options sid
  ∧ "cs-portal:sess:" +:+ sid = Session.key CsPortal.session_options sid.
Proof.
  cbv zeta. rewrite admin_logout_store_faults, cs_logout_store_faults.
  split; [|split; reflexivity].
  destruct (Redis.destroy_error f), (Redis.del_error f);
    try (split; reflexivity); split; apply lookup_delete_eq.
Qed.

(** A logout touches no other entry of the store, whatever fails: every
    key but the session's own keeps its value, so the other sessions of the
    same service survive it. *)
Theorem logout_keeps_other_sessions (cfg : Config) (f : Redis.Faults)
    (sid other : string) (redis : Redis.Store) :
  other ≠ sid ->
  logout_store (AdminPortal.auth_logout cfg f sid redis)
    !! Session.key AdminPortal.session_options other
  = redis !! Session.key AdminPortal.session_options other
  ∧ logout_store (CsPortal.auth_logout cfg f sid redis)
      !! Session.key CsPortal.session_options other
    = redis !! Session.key CsPortal.session_options other
  ∧ (forall k, k ≠ Session.key AdminPortal.session_options sid ->
       logout_store (AdminPortal.auth_logout cfg f sid redis) !! k = redis !! k)
  ∧ (forall k, k ≠ Session.key CsPortal.session_options sid ->
       logout_store (CsPortal.auth_logout cfg f sid redis) !! k = redis !! k).
Proof.
  intros Hne. rewrite admin_logout_store_faults, cs_logout_store_faults.
  assert (Ha : Session.key AdminPortal.session_options sid
               ≠ Session.key AdminPortal.session_options other).
  { intros H. apply session_key_inj in H. congruence. }
  assert (Hc : Session.key CsPortal.session_options sid
               ≠ Session.key CsPortal.session_options other).
  { intros H. apply session_key_inj in H. congruence. }
  destruct (Redis.destroy_error f), (Redis.del_error f);
    repeat split; intros; rewrite ?lookup_delete_ne; auto.
Qed.

Lemma logout_keeps_other_sessions_witness :
  let redis : Redis.Store :=
    <[Session.key AdminPortal.session_options "b" := Redis.mkSession (Some "grant-b")]>
      (<[Session.key AdminPortal.session_options "a" := Redis.mkSession (Some "grant-a")]> ∅) in
  logout_store (AdminPortal.auth_logout default_config Redis.no_faults "a" redis)
    !! Session.key AdminPortal.session_options "b"
  = redis !! Session.key AdminPortal.session_options "b".
Proof.
  cbv zeta.
  exact (proj1 (logout_keeps_other_sessions default_config Redis.no_faults "a" "b"
                  (<[Session.key AdminPortal.session_options "b"
                       := Redis.mkSession (Some "grant-b")]>
                     (<[Session.key AdminPortal.session_options "a"
                          := Redis.mkSession (Some "grant-a")]> ∅))
                  ltac:(discriminate))).
Defined.

(** ** The customers API *)

(** Every answer of CS Portal's [/api/customers] handler is a 200 JSON
    document with [success] true, [requestedBy] the token's
    [preferred_username] (left out when the claim is missing) and the same
    three customers for every caller; it differs from Admin Portal's
    profits answer in its [data] only. *)
Theorem api_customers_deterministic (g g' : Kc.Grant) :
  let r := CsPortal.api_customers g in
  Http.status r = 200
  ∧ field "success" r = Some (Js.JBool true)
  ∧ field "requestedBy" r
    = Js.JStr <$> Kc.preferred_username (Kc.content (Kc.access_token g))
  ∧ field "data" r = Some CsPortal.customers
  ∧ field "data" (CsPortal.api_customers g') = field "data" r
  ∧ field "requestedBy" r = field "requestedBy" (AdminPortal.api_profits g)
  ∧ field "data" r ≠ field "data" (AdminPortal.api_profits g).
Proof.
  cbv zeta. unfold CsPortal.api_customers, AdminPortal.api_profits, field, json_of.
  destruct (Kc.preferred_username (Kc.content (Kc.access_token g))) as [u|];
    destruct (Kc.preferred_username (Kc.content (Kc.access_token g'))) as [u'|];
    cbn; repeat split; discriminate.
Qed.

(** ** Requests and the session store *)


(** Once a code exchange has stored a grant, the browser's next request
    finds its session again with that grant in it, on every version of the
    services; the session keeps its identifier when the cookie already
    named a stored session and gets the new one otherwise. *)
Theorem exchange_then_load (s : Lifecycle.Service) (b : Lifecycle.Browser)
    (n g n' : string) :
  let b' := Lifecycle.step s b (Lifecycle.Exchange n g) in
  exists id,
    Lifecycle.cookie b' = Some id
    ∧ Session.load (Lifecycle.options s) (Lifecycle.redis b') (Lifecycle.cookie b') n'
      = Session.mkLoaded id (Redis.mkSession (Some g)) false
    ∧ (id = n ∨ (Lifecycle.cookie b = Some id
                 ∧ is_Some (Lifecycle.redis b !! Session.key (Lifecycle.options s) id))).
Proof.
  cbv zeta. destruct b as [r c].
  unfold Lifecycle.step, Lifecycle.serve, Lifecycle.callback_stored, Session.finish,
    Session.should_save, Session.load.
  cbn [Lifecycle.fate Lifecycle.after Lifecycle.response Lifecycle.redis Lifecycle.cookie].
  destruct c as [id|];
    [destruct (r !! Session.key (Lifecycle.options s) id) as [d|] eqn:Hd|]; cbn.
  - exists id. rewrite lookup_insert_eq. repeat split. right. split; [reflexivity|eauto].
  - exists n. rewrite lookup_insert_eq. repeat split. by left.
  - exists n. rewrite lookup_insert_eq. repeat split. by left.
Qed.



(** ** The dashboards *)

(** Both dashboards answer 200 with the view [dashboard] and the same
    [user] object for the same token: the name is [preferred_username], or
    [name] when that claim is missing or empty; the e-mail is there only
    when the token has one; the roles are the token's realm roles, and an
    empty list when the token has no [realm_access]. *)
Theorem dashboards_render_token (g : Kc.Grant) :
  let u := Kc.content (Kc.access_token g) in
  let a := AdminPortal.dashboard g in
  let c := CsPortal.dashboard g in
  Http.status a = 200 ∧ Http.status c = 200
  ∧ locals_of a ≫= Js.get "user" = Some (dashboard_user u)
  ∧ locals_of c ≫= Js.get "user" = Some (dashboard_user u)
  ∧ Js.get "name" (dashboard_user u)
    = Js.JStr <$> match Kc.preferred_username u with
                  | Some p => if String.eqb p "" then Kc.name u else Some p
                  | None => Kc.name u
                  end
  ∧ Js.get "email" (dashboard_user u) = Js.JStr <$> Kc.email u
  ∧ Js.get "roles" (dashboard_user u)
    = Some (Js.JArr (Js.JStr <$> match Kc.realm_roles u with
                                 | Some roles => roles
                                 | None => []
                                 end))
  ∧ locals_of a ≫= Js.get "portal" ≠ locals_of c ≫= Js.get "portal".
Proof.
  cbv zeta. unfold AdminPortal.dashboard, CsPortal.dashboard, dashboard_user, js_or.
  destruct (Kc.content (Kc.access_token g)) as [sub pu nm em roles ra ex].
  cbn [Kc.preferred_username Kc.name Kc.email Kc.realm_roles].
  destruct pu as [p|]; [destruct (String.eqb p "")|];
    destruct nm, em, roles; cbn; repeat split; discriminate.
Qed.

(** ** Configuration *)

Lemma env_or_cases (v : option string) (fallback : string) :
  (forall x, v = Some x -> x ≠ "" -> env_or v fallback = x)
  ∧ (v = None ∨ v = Some "" -> env_or v fallback = fallback)
  ∧ (fallback ≠ "" -> env_or v fallback ≠ "").
Proof.
  split; [|split].
  - intros x -> Hx. cbn. by destruct (String.eqb_spec x "").
  - by intros [-> | ->].
  - intros Hd. destruct v as [x|]; cbn; [|exact Hd].
    by destruct (String.eqb_spec x "").
Qed.

(** Each of the four URLs a service reads from the environment
    ([KEYCLOAK_URL], [CS_PORTAL_URL], [ADMIN_PORTAL_URL], [REDIS_URL]) is the
    value of its own variable when that is set and not empty, and its own
    default when the variable is unset or empty; so none is ever empty, and
    with no variable set the configuration is the default one. *)
Theorem config_never_empty (env : string -> option string) :
  let c := config_of_env env in
  let reads (name : string) (value fallback : string) :=
    (forall x, env name = Some x -> x ≠ "" -> value = x)
    ∧ (env name = None ∨ env name = Some "" -> value = fallback)
    ∧ value ≠ "" in
  reads "KEYCLOAK_URL" (KEYCLOAK_URL c) "http://localhost:8080"
  ∧ reads "CS_PORTAL_URL" (CS_PORTAL_URL c) "http://localhost:3002"
  ∧ reads "ADMIN_PORTAL_URL" (ADMIN_PORTAL_URL c) "http://localhost:3001"
  ∧ reads "REDIS_URL" (redis_url_of_env env) "redis://localhost:6379"
  ∧ config_of_env (fun _ => None) = default_config.
Proof.
  cbv zeta. unfold config_of_env, redis_url_of_env.
  cbn [KEYCLOAK_URL CS_PORTAL_URL ADMIN_PORTAL_URL].
  repeat match goal with
         | |- _ ∧ _ => split
         | |- forall x, _ = Some x -> _ => apply env_or_cases
         | |- _ ∨ _ -> _ => apply env_or_cases
         | |- env_or _ _ ≠ "" => apply env_or_cases; discriminate
         end.
  reflexivity.
Qed.
